(** * sensors_checking: a shallow embedding of the sensor health-check
      pipeline (ssh_run, get_sensors_json, flatten_sensors, validate, main)
      and the properties of its specification. *)

From Stdlib Require Import ZArith List String Ascii Bool Lia QArith DecimalString.
From Stdlib Require Import Floats.SpecFloat.
From Stdlib Require DecimalZ DecimalPos.
Import ListNotations.

Set Warnings "-register-all".

Local Open Scope string_scope.
Local Open Scope Z_scope.

(** ** Python numbers

    A Python [float] is an IEEE-754 binary64 value; it is modelled by
    [spec_float] at precision 53 and maximal exponent 1024.  A Python [int]
    is an unbounded integer, modelled by [Z]. *)

Module PyNum.

Definition prec : Z := 53.
Definition emax : Z := 1024.

Definition pyfloat : Type := spec_float.

Definition pyfloat_eqb (x y : pyfloat) : bool :=
  match x, y with
  | S754_zero a, S754_zero b => Bool.eqb a b
  | S754_infinity a, S754_infinity b => Bool.eqb a b
  | S754_nan, S754_nan => true
  | S754_finite a m e, S754_finite b n f =>
      Bool.eqb a b && Pos.eqb m n && Z.eqb e f
  | _, _ => false
  end.

(** The double nearest (ties to even) to the integer [z]. *)
Definition float_of_Z (z : Z) : pyfloat := binary_normalize prec emax z 0 false.

(** The double nearest (ties to even) to the fraction [n/d], signed by [s]. *)
Definition float_of_ratio (s : bool) (n d : positive) : pyfloat :=
  SFdiv prec emax (S754_finite s n 0) (S754_finite false d 0).

(** The double nearest to [r * 10^ex], for [r >= 0]: what reading a decimal
    literal gives. *)
Definition float_of_dec (s : bool) (r ex : Z) : pyfloat :=
  match r with
  | Zpos p =>
      if 0 <=? ex then binary_normalize prec emax (Z.mul (if s then Zneg p else Zpos p) (10 ^ ex)) 0 s
      else float_of_ratio s p (Z.to_pos (10 ^ (- ex)))
  | _ => S754_zero s
  end.

Definition is_inf (x : pyfloat) : bool :=
  match x with S754_infinity _ => true | _ => false end.

(** [a / b] on two ints, [b > 0]: the correctly rounded quotient, or
    [None] where CPython raises OverflowError ("integer division result
    too large for a float"). *)
Definition int_true_div (a : Z) (b : positive) : option pyfloat :=
  match a with
  | Z0 => Some (S754_zero false)
  | Zpos p => let q := float_of_ratio false p b in
              if is_inf q then None else Some q
  | Zneg p => let q := float_of_ratio true p b in
              if is_inf q then None else Some q
  end.

(** [x / y] on two floats, [y] not zero. *)
Definition float_div (x y : pyfloat) : pyfloat := SFdiv prec emax x y.

(** Integer nearest to [n/d], ties to even; [0 <= n], [0 < d]. *)
Definition rne_div (n d : Z) : Z :=
  let (q, r) := Z.div_eucl n d in
  match (2 * r ?= d) with
  | Lt => q
  | Gt => q + 1
  | Eq => if Z.even q then q else q + 1
  end.

(** [round(x, 1)]: infinities and NaN round to themselves; a finite [x] is
    rounded half-even to one decimal on its exact value, and the decimal
    is read back as the nearest double.  An [x] with a non-negative
    exponent is an integer and is its own rounding. *)
Definition round1 (x : pyfloat) : pyfloat :=
  match x with
  | S754_finite s m e =>
      if 0 <=? e then x
      else match rne_div (Zpos m * 10) (2 ^ (- e)) with
           | Zpos r => float_of_ratio s r 10
           | _ => S754_zero s
           end
  | _ => x
  end.

(** *** Exact values and comparisons

    Python compares ints and floats by their exact mathematical values;
    NaN is unordered with everything. *)

Inductive xreal : Type :=
| NegInf
| Fin (q : Q)
| PosInf.

Definition xreal_leb (a b : xreal) : bool :=
  match a, b with
  | NegInf, _ => true
  | _, PosInf => true
  | Fin p, Fin q => Qle_bool p q
  | _, _ => false
  end.

Definition float_value (x : pyfloat) : option xreal :=
  match x with
  | S754_nan => None
  | S754_infinity s => Some (if s then NegInf else PosInf)
  | S754_zero _ => Some (Fin 0%Q)
  | S754_finite s m e =>
      let n := if s then Zneg m else Zpos m in
      Some (Fin (if 0 <=? e then Qmake (n * 2 ^ e) 1
                 else Qmake n (Z.to_pos (2 ^ (- e)))))
  end.

(** A number as an argument or a range bound holds it: an int or a float. *)
Inductive number : Type :=
| PyInt (z : Z)
| PyFloat (f : pyfloat).

Definition num_value (a : number) : option xreal :=
  match a with
  | PyInt z => Some (Fin (inject_Z z))
  | PyFloat f => float_value f
  end.

(** [a <= b] *)
Definition num_le (a b : number) : bool :=
  match num_value a, num_value b with
  | Some x, Some y => xreal_leb x y
  | _, _ => false
  end.

(** [a < b] *)
Definition num_lt (a b : number) : bool :=
  match num_value a, num_value b with
  | Some x, Some y => negb (xreal_leb y x)
  | _, _ => false
  end.

(** *** Text of a number *)

Definition str_int (z : Z) : string := NilZero.string_of_int (Z.to_int z).

(** An int of more than [int_max_str_digits] decimal digits is not
    converted to text (CPython 3.11 and later, with the default of
    [sys.get_int_max_str_digits()]): the conversion raises ValueError.
    The lengths, positions and counts that the program prints are far
    below the limit; a bound of a range that is an int may not be. *)
Definition int_max_str_digits : Z := 4300.

Definition str_allowed (z : Z) : bool := Z.abs z <? 10 ^ int_max_str_digits.

Fixpoint zeros (n : nat) : string :=
  match n with
  | O => EmptyString
  | S k => String "0" (zeros k)
  end.

Fixpoint strip_zeros_rev (l : list ascii) : list ascii :=
  match l with
  | "0"%char :: t => strip_zeros_rev t
  | _ => l
  end.

Definition strip_trailing_zeros (s : string) : string :=
  string_of_list_ascii (rev (strip_zeros_rev (rev (list_ascii_of_string s)))).

(** Is [n/d >= 10^k]? *)
Definition ge_pow10 (n d k : Z) : bool :=
  if 0 <=? k then d * 10 ^ k <=? n else d <=? n * 10 ^ (- k).

(** The least [k], from [k] on, with [n/d < 10^k]. *)
Fixpoint decpt_search (fuel : nat) (n d k : Z) : Z :=
  match fuel with
  | O => k
  | S f => if ge_pow10 n d k then decpt_search f n d (k + 1) else k
  end.

(** A [k] with [10^k <= n/d], close to the largest one: the binary
    logarithms bound the decimal one from below. *)
Definition decpt_start (n d : Z) : Z :=
  (Z.log2 n - Z.log2 d - 1) * 30103 / 100000 - 1.

(** [n/d] rounded half-even to [i] significant digits, [n/d < 10^k]: the
    digits as an integer, to be scaled by [10^(k-i)]. *)
Definition round_sig (n d k i : Z) : Z :=
  if 0 <=? i - k then rne_div (n * 10 ^ (i - k)) d
  else rne_div n (d * 10 ^ (k - i)).

(** [n/d] cut to [i] significant digits. *)
Definition floor_sig (n d k i : Z) : Z :=
  if 0 <=? i - k then (n * 10 ^ (i - k)) / d
  else n / (d * 10 ^ (k - i)).

(** The shortest digit string that reads back as [x], tried from [i]
    digits on; 17 digits always do.  With [i] digits the two decimals
    around [x] are tried, the nearer one first: below a power of two the
    doubles are closer together than above it, and the farther decimal
    may read back as [x] where the nearer does not. *)
Fixpoint shortest_digits (fuel : nat) (x : pyfloat) (n d k i : Z) : Z * Z :=
  let r := round_sig n d k i in
  let f := floor_sig n d k i in
  let r' := if r =? f then f + 1 else f in
  match fuel with
  | O => (r, k - i)
  | S fuel' =>
      if pyfloat_eqb (float_of_dec false r (k - i)) x then (r, k - i)
      else if pyfloat_eqb (float_of_dec false r' (k - i)) x then (r', k - i)
      else shortest_digits fuel' x n d k (i + 1)
  end.

(** [repr] of a finite positive double [m * 2^e]: the shortest digits,
    in positional notation when the decimal point falls within them or
    near (-4 < decpt <= 16), else with an exponent of two digits at
    least. *)
Definition repr_finite (m : positive) (e : Z) : string :=
  let n := if 0 <=? e then Zpos m * 2 ^ e else Zpos m in
  let d := if 0 <=? e then 1 else 2 ^ (- e) in
  let k := decpt_search 700 n d (decpt_start n d) in
  let '(r, ex) := shortest_digits 16 (S754_finite false m e) n d k 1 in
  let all := str_int r in
  let decpt := ex + Z.of_nat (String.length all) in
  let ds := strip_trailing_zeros all in
  let len := String.length ds in
  if (decpt <=? -4) || (16 <? decpt) then
    String.substring 0 1 ds
    ++ (if (1 <? len)%nat then "." ++ String.substring 1 (len - 1) ds else EmptyString)
    ++ "e" ++ (if decpt - 1 <? 0 then "-" else "+")
    ++ (if Z.abs (decpt - 1) <? 10 then "0" else EmptyString)
    ++ str_int (Z.abs (decpt - 1))
  else if decpt <=? 0 then
    "0." ++ zeros (Z.to_nat (- decpt)) ++ ds
  else if Z.of_nat len <=? decpt then
    ds ++ zeros (Z.to_nat decpt - len) ++ ".0"
  else
    String.substring 0 (Z.to_nat decpt) ds ++ "."
    ++ String.substring (Z.to_nat decpt) (len - Z.to_nat decpt) ds.

(** [repr(x)], which is also [str(x)] and what an f-string prints. *)
Definition repr_float (x : pyfloat) : string :=
  match x with
  | S754_nan => "nan"
  | S754_infinity s => if s then "-inf" else "inf"
  | S754_zero s => if s then "-0.0" else "0.0"
  | S754_finite s m e => (if s then "-" else EmptyString) ++ repr_finite m e
  end.

Definition str_num (a : number) : string :=
  match a with
  | PyInt z => str_int z
  | PyFloat f => repr_float f
  end.

(** The text of [a] exists. *)
Definition printable (a : number) : bool :=
  match a with
  | PyInt z => str_allowed z
  | PyFloat _ => true
  end.

(** [json.dumps] of a float: [repr], but NaN and the infinities have
    their JavaScript names. *)
Definition json_float (x : pyfloat) : string :=
  match x with
  | S754_nan => "NaN"
  | S754_infinity s => if s then "-Infinity" else "Infinity"
  | _ => repr_float x
  end.

End PyNum.

Import PyNum.

(** ** Strings

    A Python [str] is modelled by a Rocq [string]; [startswith] and
    [endswith] are used with ASCII patterns only. *)

Definition startswith (s p : string) : bool := String.prefix p s.

Definition endswith (s suf : string) : bool :=
  (String.length suf <=? String.length s)%nat
  && String.eqb
       (String.substring (String.length s - String.length suf)
                         (String.length suf) s)
       suf.

(** A str is held as its UTF-8 bytes; a lone surrogate, which a JSON
    text can give with an escape such as \ud800, is held as the three
    bytes ED, A0..BF, 80..BF. *)

Definition hex_digit (n : nat) : ascii :=
  match n with
  | 0 => "0" | 1 => "1" | 2 => "2" | 3 => "3" | 4 => "4" | 5 => "5"
  | 6 => "6" | 7 => "7" | 8 => "8" | 9 => "9" | 10 => "a" | 11 => "b"
  | 12 => "c" | 13 => "d" | 14 => "e" | _ => "f"
  end%nat%char.

(** [n] in [k] hexadecimal digits, lower case. *)
Fixpoint hex (k n : nat) : string :=
  match k with
  | O => EmptyString
  | S k' => hex k' (n / 16) ++ String (hex_digit (n mod 16)) EmptyString
  end.

(** The surrogate that [s] starts with, as the low twelve bits of its
    code point, and what follows it. *)
Definition surrogate_at (s : string) : option (nat * string) :=
  match s with
  | String c (String d (String e rest)) =>
      if ((nat_of_ascii c =? 237) && (160 <=? nat_of_ascii d)
          && (nat_of_ascii d <? 192) && (128 <=? nat_of_ascii e)
          && (nat_of_ascii e <? 192))%nat
      then Some (((nat_of_ascii d - 128) * 64 + (nat_of_ascii e - 128))%nat, rest)
      else None
  | _ => None
  end.

(** A byte that continues a character. *)
Definition is_continuation (c : ascii) : bool :=
  ((128 <=? nat_of_ascii c) && (nat_of_ascii c <? 192))%nat.

(** The first surrogate of [s]: its position counted in characters from
    [pos], its low bits, and what follows it. *)
Fixpoint first_surrogate (s : string) (pos : nat) : option (nat * nat * string) :=
  match surrogate_at s with
  | Some (low, rest) => Some (pos, low, rest)
  | None =>
      match s with
      | EmptyString => None
      | String c t => first_surrogate t (if is_continuation c then pos else S pos)
      end
  end.

(** How many surrogates [s] starts with. *)
Fixpoint surrogate_run (fuel : nat) (s : string) : nat :=
  match fuel with
  | O => O
  | S f =>
      match surrogate_at s with
      | Some (_, rest) => S (surrogate_run f rest)
      | None => O
      end
  end.

(** Can [s] be encoded as UTF-8? *)
Definition encodable (s : string) : bool :=
  match first_surrogate s 0 with
  | Some _ => false
  | None => true
  end.

Definition str_nat (n : nat) : string :=
  NilZero.string_of_uint (Nat.to_uint n).

(** [str(e)] of the UnicodeEncodeError on [s]. *)
Definition encode_error_text (s : string) : string :=
  match first_surrogate s 0 with
  | Some (pos, low, rest) =>
      match surrogate_run (String.length rest) rest with
      | O => "'utf-8' codec can't encode character '\ud" ++ hex 3 low
             ++ "' in position " ++ str_nat pos ++ ": surrogates not allowed"
      | S more => "'utf-8' codec can't encode characters in position "
                  ++ str_nat pos ++ "-" ++ str_nat (pos + S more)
                  ++ ": surrogates not allowed"
      end
  | None => EmptyString
  end.

Definition has_char (c : ascii) (s : string) : bool :=
  existsb (Ascii.eqb c) (list_ascii_of_string s).

Definition backslash : ascii := ascii_of_nat 92.
Definition double_quote : ascii := ascii_of_nat 34.

(** The body of [repr(s)] between its quotes [q]: the quote and the
    backslash are escaped, the control characters are written as
    \t, \n, \r or \xNN, a surrogate as \udNNN; the other characters
    are written as they are.  This is [repr] on the ASCII strings; of
    the characters beyond ASCII, Python escapes those that are not
    printable, which is not modelled: the properties of [repr_str] below
    are stated for ASCII strings. *)
Fixpoint repr_body (q : ascii) (s : string) : string :=
  match s with
  | EmptyString => EmptyString
  | String c t =>
      (if Ascii.eqb c q || Ascii.eqb c backslash then
         String backslash (String c EmptyString)
       else if (nat_of_ascii c =? 9)%nat then String backslash "t"
       else if (nat_of_ascii c =? 10)%nat then String backslash "n"
       else if (nat_of_ascii c =? 13)%nat then String backslash "r"
       else if ((nat_of_ascii c <? 32) || (nat_of_ascii c =? 127))%nat then
         String backslash ("x" ++ hex 2 (nat_of_ascii c))
       else
         match surrogate_at s with
         | Some (low, _) => String backslash ("ud" ++ hex 3 low)
         | None => String c EmptyString
         end)
      ++ match surrogate_at s, t with
         | Some _, String _ (String _ rest) => repr_body q rest
         | _, _ => repr_body q t
         end
  end.

(** [repr(s)]: in single quotes, unless [s] holds a single quote and no
    double quote. *)
Definition repr_str (s : string) : string :=
  let q := if has_char "'" s && negb (has_char double_quote s)
           then double_quote else "'"%char in
  String q (repr_body q s ++ String q EmptyString).

Definition ascii_only (s : string) : bool :=
  forallb (fun c => (nat_of_ascii c <? 128)%nat) (list_ascii_of_string s).

(** [", ".join(l)] *)
Fixpoint join (sep : string) (l : list string) : string :=
  match l with
  | [] => EmptyString
  | [x] => x
  | x :: t => x ++ sep ++ join sep t
  end.

(** ** Values read from JSON

    What [json.loads] returns: [None], a bool, an int, a float, a str, a
    list, or a dict, which keeps its keys in insertion order. *)

Inductive json : Type :=
| JNull
| JBool (b : bool)
| JInt (z : Z)
| JFloat (f : pyfloat)
| JStr (s : string)
| JArr (l : list json)
| JObj (l : list (string * json)).

(** [type(v).__name__] *)
Definition type_name (v : json) : string :=
  match v with
  | JNull => "NoneType"
  | JBool _ => "bool"
  | JInt _ => "int"
  | JFloat _ => "float"
  | JStr _ => "str"
  | JArr _ => "list"
  | JObj _ => "dict"
  end.

(** ** Exceptions, output and control

    Every exception of the model is an instance of [Exception]; the
    classes that the handlers of the program tell apart are named. *)

Inductive exn_class : Type :=
| TypeError
| ValueError
| JSONDecodeError
| UnicodeDecodeError
| UnicodeEncodeError
| AttributeError
| OverflowError
| KeyError
| SSHException
| OSError
| RuntimeError.

Record exn : Type := mk_exn { exn_cls : exn_class; exn_msg : string }.

(** [isinstance(e, TypeError)] *)
Definition is_TypeError (e : exn) : bool :=
  match exn_cls e with TypeError => true | _ => false end.

(** [isinstance(e, ValueError)]: JSONDecodeError, UnicodeDecodeError and
    UnicodeEncodeError are subclasses of ValueError. *)
Definition is_ValueError (e : exn) : bool :=
  match exn_cls e with
  | ValueError | JSONDecodeError | UnicodeDecodeError | UnicodeEncodeError => true
  | _ => false
  end.

Definition is_JSONDecodeError (e : exn) : bool :=
  match exn_cls e with JSONDecodeError => true | _ => false end.

Inductive stream : Type := Stdout | Stderr.

Inductive conn_op : Type :=
| SetPolicy
| Connect (by_key : bool)
| ExecCommand (cmd : string)
| ReadStderr
| ReadStdout
| Close.

Inductive func : Type :=
| F_ssh_run
| F_json_loads
| F_flatten_sensors
| F_validate.

(** What a run leaves behind, in order: a line printed, an operation on
    the SSH connection, or the entry into a function of the pipeline
    (recorded for the claims on what runs before what; it is no output). *)
Inductive event : Type :=
| Print (s : stream) (line : string)
| Conn (op : conn_op)
| Call (f : func).

(** How a computation ends: with a value, with an exception, or with
    [sys.exit(code)], that is SystemExit, which no [except Exception]
    catches. *)
Inductive outcome (A : Type) : Type :=
| Ret (a : A)
| Raise (e : exn)
| Exit (code : Z).

Arguments Ret {A} a.
Arguments Raise {A} e.
Arguments Exit {A} code.

Definition M (A : Type) : Type := (list event * outcome A)%type.

Definition ret {A} (a : A) : M A := ([], Ret a).

Definition bind {A B} (m : M A) (k : A -> M B) : M B :=
  match m with
  | (l, Ret a) => let (l', o) := k a in ((l ++ l')%list, o)
  | (l, Raise e) => (l, Raise e)
  | (l, Exit c) => (l, Exit c)
  end.

Declare Scope py_scope.
Delimit Scope py_scope with py.
Notation "x <- m ;; k" := (bind m (fun x => k))
  (at level 100, m at next level, right associativity) : py_scope.
Notation "m ;; k" := (bind m (fun _ => k))
  (at level 100, right associativity) : py_scope.
Local Open Scope py_scope.

Definition emit (ev : event) : M unit := ([ev], Ret tt).
Definition print (line : string) : M unit := emit (Print Stdout line).
Definition eprint (line : string) : M unit := emit (Print Stderr line).
Definition call (f : func) : M unit := emit (Call f).
Definition raise {A} (e : exn) : M A := ([], Raise e).
Definition sys_exit {A} (code : Z) : M A := ([], Exit code).

(** [print] of a line that holds a name read from the document.  stdout
    encodes as UTF-8 and is strict: the line is written whole, or, when
    it holds a lone surrogate, not at all, and UnicodeEncodeError is
    raised.  (The other lines that the program prints on stdout hold
    numbers, fixed text, or the message of an exception of ssh_run or
    json.loads, taken to be encodable; stderr replaces what it cannot
    encode.) *)
Definition encode_error (line : string) : exn :=
  mk_exn UnicodeEncodeError (encode_error_text line).

Definition print_encoded (line : string) : M unit :=
  if encodable line then print line else raise (encode_error line).

(** [try: m  except C as e: h e], [catches] deciding [isinstance(e, C)]. *)
Definition try_except {A} (m : M A) (catches : exn -> bool) (h : exn -> M A) : M A :=
  match m with
  | (l, Raise e) =>
      if catches e then let (l', o) := h e in ((l ++ l')%list, o)
      else (l, Raise e)
  | _ => m
  end.

(** [try: m  finally: fin]: [fin] runs however [m] ends, and the outcome
    is that of [m] unless [fin] itself ends with an exception or an exit. *)
Definition try_finally {A} (m : M A) (fin : M unit) : M A :=
  let (l, o) := m in
  match fin with
  | (l', Ret _) => ((l ++ l')%list, o)
  | (l', Raise e) => ((l ++ l')%list, Raise e)
  | (l', Exit c) => ((l ++ l')%list, Exit c)
  end.

(** [for x in l: s = body s x] *)
Fixpoint for_each {A S} (l : list A) (body : S -> A -> M S) (s : S) : M S :=
  match l with
  | [] => ret s
  | x :: t => s' <- body s x ;; for_each t body s'
  end.

Definition when (b : bool) (m : M unit) : M unit := if b then m else ret tt.

Definition log {A} (m : M A) : list event := fst m.
Definition result {A} (m : M A) : outcome A := snd m.

(** ** flatten_sensors *)

Record flat : Type := mk_flat { temp : list pyfloat; hum : list pyfloat }.

(** [isinstance(val, (int, float))]; a bool is an int. *)
Definition is_numeric (val : json) : bool :=
  match val with
  | JBool _ | JInt _ | JFloat _ => true
  | _ => false
  end.

Definition overflow_error : exn :=
  mk_exn OverflowError "integer division result too large for a float".

(** [val / 1000] for a numeric [val]. *)
Definition div1000 (val : json) : M pyfloat :=
  match val with
  | JBool b =>
      match int_true_div (if b then 1 else 0) 1000 with
      | Some q => ret q
      | None => raise overflow_error
      end
  | JInt z =>
      match int_true_div z 1000 with
      | Some q => ret q
      | None => raise overflow_error
      end
  | JFloat f => ret (float_div f (float_of_Z 1000))
  | _ => raise (mk_exn TypeError
                 ("unsupported operand type(s) for /: '" ++ type_name val ++ "' and 'int'"))
  end.

(** [data.values()] *)
Definition values (data : json) : M (list json) :=
  match data with
  | JObj l => ret (map snd l)
  | _ => raise (mk_exn AttributeError
                 ("'" ++ type_name data ++ "' object has no attribute 'values'"))
  end.

(** [chip.items()] *)
Definition items (chip : json) : M (list (string * json)) :=
  match chip with
  | JObj l => ret l
  | _ => raise (mk_exn AttributeError
                 ("'" ++ type_name chip ++ "' object has no attribute 'items'"))
  end.

Definition skip_warning (label : string) : string :=
  "Warning: sensor value " ++ label ++ " is not numeric, skipping".

(** The body of the inner loop, on one [(label, val)]. *)
Definition flatten_field (fl : flat) (field : string * json) : M flat :=
  let (label, val) := field in
  if negb (is_numeric val) then
    print_encoded (skip_warning label) ;; ret fl
  else if negb (endswith label "_input") then
    ret fl
  else
    q <- div1000 val ;;
    let value := round1 q in
    if startswith label "temp" then
      ret (mk_flat (temp fl ++ [value]) (hum fl))
    else if startswith label "humidity" then
      ret (mk_flat (temp fl) (hum fl ++ [value]))
    else ret fl.

(** The body of the outer loop, on one chip. *)
Definition flatten_chip (fl : flat) (chip : json) : M flat :=
  fields <- items chip ;;
  for_each fields flatten_field fl.

Definition flatten_sensors (data : json) : M flat :=
  call F_flatten_sensors ;;
  chips <- values data ;;
  for_each chips flatten_chip (mk_flat [] []).

(** ** validate *)

(** [enumerate(lst, start)] *)
Fixpoint enumerate {A} (lst : list A) (start : Z) : list (Z * A) :=
  match lst with
  | [] => []
  | v :: t => (start, v) :: enumerate t (start + 1)
  end.

(** [ranges[kind]] *)
Fixpoint dict_get {V} (d : list (string * V)) (key : string) : M V :=
  match d with
  | [] => raise (mk_exn KeyError (repr_str key))
  | (k, v) :: t => if String.eqb k key then ret v else dict_get t key
  end.

(** [lo <= v <= hi] *)
Definition within (lo : number) (v : pyfloat) (hi : number) : bool :=
  num_le lo (PyFloat v) && num_le (PyFloat v) hi.

(** [f"{kind}{i}: {v} out of {lo}..{hi}"], where the bounds have a text *)
Definition issue_text (kind : string) (i : Z) (v : pyfloat) (lo hi : number) : string :=
  kind ++ str_int i ++ ": " ++ repr_float v ++ " out of "
  ++ str_num lo ++ ".." ++ str_num hi.

(** The conversion of a bound in the f-string: an int beyond the limit
    of digits raises ValueError. *)
Definition str_limit_error : exn :=
  mk_exn ValueError
    "Exceeds the limit (4300 digits) for integer string conversion; use sys.set_int_max_str_digits() to increase the limit".

Definition format_num (a : number) : M string :=
  if printable a then ret (str_num a) else raise str_limit_error.

(** The f-string as the program evaluates it, field after field. *)
Definition issue_line (kind : string) (i : Z) (v : pyfloat) (lo hi : number) : M string :=
  slo <- format_num lo ;;
  shi <- format_num hi ;;
  ret (kind ++ str_int i ++ ": " ++ repr_float v ++ " out of " ++ slo ++ ".." ++ shi).

(** The inner loop of [validate], over one kind. *)
Definition validate_kind (kind : string) (lo hi : number) (lst : list pyfloat)
    (issues : list string) : M (list string) :=
  for_each (enumerate lst 1)
    (fun issues iv =>
       let '(i, v) := iv in
       if negb (within lo v hi) then
         line <- issue_line kind i v lo hi ;;
         ret (issues ++ [line])%list
       else ret issues)
    issues.

Definition validate (vals : list (string * list pyfloat))
    (ranges : list (string * (number * number))) : M (list string) :=
  call F_validate ;;
  for_each vals
    (fun issues kl =>
       let '(kind, lst) := kl in
       r <- dict_get ranges kind ;;
       let '(lo, hi) := r in
       validate_kind kind lo hi lst issues)
    [].

(** The dict that [flatten_sensors] returns, as [validate] walks it:
    its keys in insertion order. *)
Definition flat_items (fl : flat) : list (string * list pyfloat) :=
  [("temp", temp fl); ("hum", hum fl)].

(** ** ssh_run

    The SSH library is outside the program: [ssh_world] says how each of
    its operations ends in a run, [None] for success. *)

Record ssh_world : Type := mk_ssh_world {
  new_client : option exn;
  set_policy : option exn;
  connect : option exn;
  exec_command : option exn;
  stderr_read : exn + string;
  stdout_read : exn + string;
  close : option exn
}.

Definition conn_do (op : conn_op) (r : option exn) : M unit :=
  emit (Conn op) ;;
  match r with
  | None => ret tt
  | Some e => raise e
  end.

Definition conn_read (op : conn_op) (r : exn + string) : M string :=
  emit (Conn op) ;;
  match r with
  | inr s => ret s
  | inl e => raise e
  end.

(** The truth value of an optional string argument. *)
Definition truthy (s : option string) : bool :=
  match s with
  | Some v => negb (String.eqb v EmptyString)
  | None => false
  end.

Definition any_exception (e : exn) : bool := true.

Definition ssh_run (w : ssh_world) (host user : string)
    (password key : option string) (cmd : string) (port : Z) : M string :=
  call F_ssh_run ;;
  let created := match new_client w with None => true | Some _ => false end in
  try_finally
    (try_except
       (match new_client w with
        | Some e => raise e
        | None =>
            conn_do SetPolicy (set_policy w) ;;
            conn_do (Connect (truthy key)) (connect w) ;;
            conn_do (ExecCommand cmd) (exec_command w) ;;
            err <- conn_read ReadStderr (stderr_read w) ;;
            when (negb (String.eqb err EmptyString))
                 (eprint ("SSH command error: " ++ err)) ;;
            conn_read ReadStdout (stdout_read w)
        end)
       any_exception
       (fun e => eprint ("SSH operation failed: " ++ exn_msg e) ;; raise e))
    (when created
       (try_except (conn_do Close (close w))
          any_exception
          (fun e => eprint ("Warning: Failed to close SSH connection: " ++ exn_msg e)))).

(** ** get_sensors_json

    [json.loads] is the runtime's: the world gives what it returns or
    raises on each text. *)

Record world : Type := mk_world {
  ssh : ssh_world;
  loads : string -> exn + json
}.

Definition json_loads (w : world) (raw : string) : M json :=
  call F_json_loads ;;
  match loads w raw with
  | inr v => ret v
  | inl e => raise e
  end.

(** [try: m] with several [except] clauses: the first that matches runs. *)
Fixpoint try_excepts {A} (m : M A) (clauses : list ((exn -> bool) * (exn -> M A))) : M A :=
  match clauses with
  | [] => m
  | (catches, h) :: rest =>
      match m with
      | (l, Raise e) => if catches e then try_except m catches h
                        else try_excepts m rest
      | _ => m
      end
  end.

Definition get_sensors_json (w : world) (host user : string)
    (password key : option string) (port : Z) : M json :=
  try_excepts
    (raw <- ssh_run (ssh w) host user password key "sensors -j" port ;;
     data <- json_loads w raw ;;
     ret data)
    [ (is_TypeError,
       fun e => print ("Error - non-deserializable data received: " ++ exn_msg e) ;;
                sys_exit 3);
      (is_JSONDecodeError,
       fun e => print ("Error parsing sensors JSON: " ++ exn_msg e) ;; sys_exit 3);
      (is_ValueError,
       fun e => print ("Unexpected error: " ++ exn_msg e) ;; sys_exit 3) ].

(** ** main *)

(** A range as the parser of the arguments gives it: the default, a pair
    of ints, or the two floats of the command line ([nargs=2],
    [type=float]). *)
Inductive range_arg : Type :=
| DefaultRange
| GivenRange (lo hi : pyfloat).

Record args : Type := mk_args {
  host : string;
  user : string;
  password : option string;
  key : option string;
  port : Z;
  expected_sensors : Z;
  temp_range_arg : range_arg;
  hum_range_arg : range_arg;
  raw_json_output : bool
}.

Definition range_of_arg (default : Z * Z) (r : range_arg) : number * number :=
  match r with
  | DefaultRange => (PyInt (fst default), PyInt (snd default))
  | GivenRange lo hi => (PyFloat lo, PyFloat hi)
  end.

(** [tuple(args.temp_range)] and [tuple(args.hum_range)] *)
Definition temp_range (a : args) : number * number :=
  range_of_arg (-20, 80) (temp_range_arg a).

Definition hum_range (a : args) : number * number :=
  range_of_arg (0, 100) (hum_range_arg a).

Definition dquote : string := String (ascii_of_nat 34) EmptyString.

(** [str] of a list of floats *)
Definition str_list (l : list pyfloat) : string :=
  "[" ++ join ", " (map repr_float l) ++ "]".

(** [json.dumps(vals)] for the dict of the two sequences *)
Definition json_dumps (vals : flat) : string :=
  "{" ++ dquote ++ "temp" ++ dquote ++ ": ["
  ++ join ", " (map json_float (temp vals))
  ++ "], " ++ dquote ++ "hum" ++ dquote ++ ": ["
  ++ join ", " (map json_float (hum vals)) ++ "]}".

Definition len {A} (l : list A) : Z := Z.of_nat (List.length l).

Definition found_line (vals : flat) : string :=
  "Found " ++ str_int (len (temp vals)) ++ " temp sensors and "
  ++ str_int (len (hum vals)) ++ " humidity sensors (total "
  ++ str_int (len (temp vals) + len (hum vals)) ++ ")".

Definition missing_line (expected total : Z) : string :=
  "Missing sensors: expected " ++ str_int expected ++ ", found " ++ str_int total.

Definition nonempty {A} (l : list A) : bool :=
  match l with [] => false | _ => true end.

Definition main (w : world) (a : args) : M unit :=
  let ranges := [("temp", temp_range a); ("hum", hum_range a)] in
  try_except
    (data <- get_sensors_json w (host a) (user a) (password a) (key a) (port a) ;;
     vals <- flatten_sensors data ;;
     when (raw_json_output a)
          (print (json_dumps vals) ;; sys_exit 0) ;;
     let total := len (temp vals) + len (hum vals) in
     print (found_line vals) ;;
     print ("Temperature values: " ++ str_list (temp vals)) ;;
     print ("Humidity values:    " ++ str_list (hum vals)) ;;
     when (total <? expected_sensors a)
          (print (missing_line (expected_sensors a) total) ;; sys_exit 1) ;;
     issues <- validate (flat_items vals) ranges ;;
     when (nonempty issues)
          (print "ISSUES:" ;;
           for_each issues (fun _ issue => print ("- " ++ issue)) tt ;;
           sys_exit 2))
    any_exception
    (fun e => eprint ("Failed to get sensor data: " ++ exn_msg e) ;; sys_exit 1) ;;
  print "All sensors within range, exiting 0" ;;
  sys_exit 0.

Definition exit_code {A} (m : M A) : option Z :=
  match result m with
  | Exit c => Some c
  | _ => None
  end.

(** ** The runs of the test suite *)

Module Scenario.

Definition q (s : string) : string := dquote ++ s ++ dquote.

(** SAMPLE_JSON of the tests *)
Definition SAMPLE_JSON : json :=
  JObj [("coretemp-isa-0000",
         JObj [("temp1_input", JInt 25000);
               ("temp2_input", JInt 26000);
               ("humidity1_input", JInt 45000)])].

(** [json.dumps(SAMPLE_JSON)] *)
Definition sample_text : string :=
  "{" ++ q "coretemp-isa-0000" ++ ": {" ++ q "temp1_input" ++ ": 25000, "
  ++ q "temp2_input" ++ ": 26000, " ++ q "humidity1_input" ++ ": 45000}}".

(** The document of test_main_out_of_range and its text *)
Definition BAD_JSON : json :=
  JObj [("chip0",
         JObj [("temp1_input", JInt (-30000));
               ("humidity1_input", JInt 150000)])].

Definition bad_text : string :=
  "{" ++ q "chip0" ++ ": {" ++ q "temp1_input" ++ ": -30000, "
  ++ q "humidity1_input" ++ ": 150000}}".

Definition decode_error : exn :=
  mk_exn JSONDecodeError
    "Expecting property name enclosed in double quotes: line 1 column 2 (char 1)".

(** [json.loads] on the texts of the scenarios. *)
Definition loads_table (raw : string) : exn + json :=
  if String.eqb raw sample_text then inr SAMPLE_JSON
  else if String.eqb raw bad_text then inr BAD_JSON
  else if String.eqb raw "[]" then inr (JArr [])
  else if String.eqb raw "{invalid}" then inl decode_error
  else inl (mk_exn JSONDecodeError "Expecting value: line 1 column 1 (char 0)").

(** A session in which every SSH operation succeeds and the command
    prints [text]. *)
Definition ssh_ok (text : string) : ssh_world :=
  mk_ssh_world None None None None (inr EmptyString) (inr text) None.

Definition world_of (text : string) : world := mk_world (ssh_ok text) loads_table.

Definition default_args : args :=
  mk_args "1.2.3.4" "user" (Some "pass") None 22 3
          DefaultRange DefaultRange false.

Definition with_expected (n : Z) (a : args) : args :=
  mk_args (host a) (user a) (password a) (key a) (port a) n
          (temp_range_arg a) (hum_range_arg a) (raw_json_output a).

Definition with_raw (a : args) : args :=
  mk_args (host a) (user a) (password a) (key a) (port a) (expected_sensors a)
          (temp_range_arg a) (hum_range_arg a) true.

Definition with_temp_range (r : range_arg) (a : args) : args :=
  mk_args (host a) (user a) (password a) (key a) (port a) (expected_sensors a)
          r (hum_range_arg a) (raw_json_output a).

End Scenario.

(** ** What the specification says, in the terms of the program *)

(** A well-formed Raw Sensor Document: a mapping whose values are
    mappings.  (An association list stands for a dict; that the keys of
    a dict are distinct plays no role below.) *)
Definition is_mapping (v : json) : bool :=
  match v with JObj _ => true | _ => false end.

Definition wf_doc (d : json) : bool :=
  match d with
  | JObj chips => forallb (fun c => is_mapping (snd c)) chips
  | _ => false
  end.

Definition fields_of_chip (chip : json) : list (string * json) :=
  match chip with JObj fs => fs | _ => [] end.

(** The fields of a document in encounter order over chips and fields. *)
Definition fields_of (d : json) : list (string * json) :=
  match d with
  | JObj chips => flat_map (fun c => fields_of_chip (snd c)) chips
  | _ => []
  end.

(** [round(v / 1000, 1)], where the division is defined. *)
Definition reading (v : json) : option pyfloat :=
  match result (div1000 v) with
  | Ret q => Some (round1 q)
  | _ => None
  end.

Definition is_input (field : string * json) : bool :=
  is_numeric (snd field) && endswith (fst field) "_input".

Definition is_temp (field : string * json) : bool :=
  is_input field && startswith (fst field) "temp".

Definition is_hum (field : string * json) : bool :=
  is_input field && startswith (fst field) "humidity".

Definition temp_of (fs : list (string * json)) : list (option pyfloat) :=
  map (fun f => reading (snd f)) (filter is_temp fs).

Definition hum_of (fs : list (string * json)) : list (option pyfloat) :=
  map (fun f => reading (snd f)) (filter is_hum fs).

(** The warnings of a run over the fields [fs]. *)
Definition warnings_of (fs : list (string * json)) : list event :=
  map (fun f => Print Stdout (skip_warning (fst f)))
      (filter (fun f => negb (is_numeric (snd f))) fs).

(** No field that is converted has an int too large for the division. *)
Definition convertible (field : string * json) : bool :=
  negb (is_input field)
  || match reading (snd field) with Some _ => true | None => false end.

Definition no_overflow (d : json) : bool := forallb convertible (fields_of d).



(** The issues of one kind, as the code decides them. *)
Definition issues_of (kind : string) (r : number * number) (lst : list pyfloat)
    : list string :=
  map (fun iv => issue_text kind (fst iv) (snd iv) (fst r) (snd r))
      (filter (fun iv => negb (within (fst r) (snd iv) (snd r)))
              (enumerate lst 1)).

(** The issues of one kind, in the words of the specification: a value
    below the minimum or above the maximum. *)
Definition outside (lo : number) (v : pyfloat) (hi : number) : bool :=
  num_lt (PyFloat v) lo || num_lt hi (PyFloat v).

Definition issues_as_specified (kind : string) (r : number * number)
    (lst : list pyfloat) : list string :=
  map (fun iv => issue_text kind (fst iv) (snd iv) (fst r) (snd r))
      (filter (fun iv => outside (fst r) (snd iv) (snd r)) (enumerate lst 1)).

(** [kind in ranges] and [ranges[kind]], without the exception. *)
Fixpoint lookup {V} (d : list (string * V)) (key : string) : option V :=
  match d with
  | [] => None
  | (k, v) :: t => if String.eqb k key then Some v else lookup t key
  end.

Definition covers {V W} (ranges : list (string * V)) (vals : list (string * W)) : bool :=
  forallb (fun kl => match lookup ranges (fst kl) with Some _ => true | None => false end)
          vals.

Definition default_range : number * number := (PyInt 0, PyInt 0).

Definition range_of (ranges : list (string * (number * number))) (kind : string)
    : number * number :=
  match lookup ranges kind with Some r => r | None => default_range end.

(** The body of the [try] of [get_sensors_json]. *)
Definition fetch (w : world) (host user : string)
    (password key : option string) (port : Z) : M json :=
  raw <- ssh_run (ssh w) host user password key "sensors -j" port ;;
  data <- json_loads w raw ;;
  ret data.

(** Step (a) of [main]: the readings as acquired. *)
Definition acquire (w : world) (host user : string)
    (password key : option string) (port : Z) : M flat :=
  data <- get_sensors_json w host user password key port ;;
  flatten_sensors data.

Definition is_stderr (ev : event) : bool :=
  match ev with Print Stderr _ => true | _ => false end.

(** What follows the first [close] in a log. *)
Fixpoint after_close (l : list event) : option (list event) :=
  match l with
  | [] => None
  | Conn Close :: t => Some t
  | _ :: t => after_close t
  end.

Definition set_close (r : option exn) (w : ssh_world) : ssh_world :=
  mk_ssh_world (new_client w) (set_policy w) (connect w) (exec_command w)
               (stderr_read w) (stdout_read w) r.

Definition zero : pyfloat := S754_zero false.

(** [flat[kind].append(value)] for the field [label], by its prefix. *)
Definition append_reading (label : string) (value : pyfloat) (fl : flat) : flat :=
  if startswith label "temp" then mk_flat (temp fl ++ [value]) (hum fl)
  else if startswith label "humidity" then mk_flat (temp fl) (hum fl ++ [value])
  else fl.

(** The handler of [get_sensors_json] that an exception reaches. *)
Definition bad_data_line (e : exn) : string :=
  if is_TypeError e then "Error - non-deserializable data received: " ++ exn_msg e
  else if is_JSONDecodeError e then "Error parsing sensors JSON: " ++ exn_msg e
  else "Unexpected error: " ++ exn_msg e.

Definition is_bad_data (e : exn) : bool := is_TypeError e || is_ValueError e.

(** A later stage of the pipeline is entered. *)
Definition later_stage (ev : event) : bool :=
  match ev with
  | Call F_flatten_sensors | Call F_validate => true
  | _ => false
  end.

Definition is_validate (ev : event) : bool :=
  match ev with Call F_validate => true | _ => false end.

(** No NaN among the bounds and the values: the order is total there. *)
Definition is_ordered (a : number) : bool :=
  match num_value a with Some _ => true | None => false end.

Definition nan_free (r : number * number) (lst : list pyfloat) : bool :=
  is_ordered (fst r) && is_ordered (snd r)
  && forallb (fun v => is_ordered (PyFloat v)) lst.

(** The issues of a whole readings map, kind after kind. *)
Definition all_issues (vals : list (string * list pyfloat))
    (ranges : list (string * (number * number))) : list string :=
  flat_map (fun kl => issues_of (fst kl) (range_of ranges (fst kl)) (snd kl)) vals.

Definition all_within (vals : list (string * list pyfloat))
    (ranges : list (string * (number * number))) : bool :=
  forallb (fun kl =>
             forallb (fun v => within (fst (range_of ranges (fst kl))) v
                                      (snd (range_of ranges (fst kl))))
                     (snd kl))
          vals.

(** Steps (b) to (e) of [main], on the readings: what the [try] of
    [main] does after [flatten_sensors]. *)
Definition report (a : args) (vals : flat) : M unit :=
  let ranges := [("temp", temp_range a); ("hum", hum_range a)] in
  when (raw_json_output a)
       (print (json_dumps vals) ;; sys_exit 0) ;;
  let total := len (temp vals) + len (hum vals) in
  print (found_line vals) ;;
  print ("Temperature values: " ++ str_list (temp vals)) ;;
  print ("Humidity values:    " ++ str_list (hum vals)) ;;
  when (total <? expected_sensors a)
       (print (missing_line (expected_sensors a) total) ;; sys_exit 1) ;;
  issues <- validate (flat_items vals) ranges ;;
  when (nonempty issues)
       (print "ISSUES:" ;;
        for_each issues (fun _ issue => print ("- " ++ issue)) tt ;;
        sys_exit 2).

(** The handler of the [try] of [main], and what follows the [try]. *)
Definition failed (e : exn) : M unit :=
  eprint ("Failed to get sensor data: " ++ exn_msg e) ;; sys_exit 1.

Definition all_ok : M unit :=
  print "All sensors within range, exiting 0" ;; sys_exit 0.

(** The run of [main] from the document on. *)
Definition main_from (a : args) (data : json) : M unit :=
  try_except (vals <- flatten_sensors data ;; report a vals) any_exception failed ;;
  all_ok.

(** The lines of the summary, step (c) of [main]. *)
Definition summary (vals : flat) : list event :=
  [Print Stdout (found_line vals);
   Print Stdout ("Temperature values: " ++ str_list (temp vals));
   Print Stdout ("Humidity values:    " ++ str_list (hum vals))].

(** The ranges as [main] builds them from the arguments. *)
Definition ranges_of (a : args) : list (string * (number * number)) :=
  [("temp", temp_range a); ("hum", hum_range a)].

(** [validate] is not entered. *)
Definition no_validate (l : list event) : bool :=
  forallb (fun ev => negb (is_validate ev)) l.

(** A computation that does not enter [validate] and does not exit. *)
Definition calm {A} (m : M A) : Prop :=
  no_validate (log m) = true /\ forall c, result m <> Exit c.

(** ** Inputs of the examples *)

Module Input.

Definition dec (s : bool) (r ex : Z) : pyfloat := float_of_dec s r ex.

(** [{"chip": {"temp1_input": 10**400}}] *)
Definition huge_doc : json :=
  JObj [("chip", JObj [("temp1_input", JInt (10 ^ 400))])].


(** A document with metadata, a string, a float, a bool and two chips. *)
Definition mixed_doc : json :=
  JObj [("coretemp-isa-0000",
         JObj [("Adapter", JStr "ISA adapter");
               ("temp1_input", JInt 25000);
               ("temp1_max", JInt 80000);
               ("humidity1_input", JFloat (dec false 455005 (-1)));
               ("fan1_input", JInt 1200);
               ("temp2_input", JBool true)]);
        ("acpitz", JObj [("temp1_input", JInt 26049)])].

Definition mixed_readings : flat :=
  mk_flat [dec false 25 0; zero; dec false 26 0] [dec false 455 (-1)].

(** [{"chip": {"temp1_input": true}}] *)
Definition bool_doc : json :=
  JObj [("chip", JObj [("temp1_input", JBool true)])].


(** The example of the docstring of [validate]. *)
Definition doc_vals : list (string * list pyfloat) :=
  [("temp", [dec false 25 0; dec true 5 0; dec false 55 0]);
   ("hum", [dec false 50 0; dec false 120 0])].

Definition doc_ranges : list (string * (number * number)) :=
  [("temp", (PyInt 0, PyInt 50)); ("hum", (PyInt 0, PyInt 100))].

(** A reading that is NaN, as the JSON text NaN gives. *)
Definition nan_vals : list (string * list pyfloat) :=
  [("temp", [S754_nan]); ("hum", [])].

Definition default_ranges : list (string * (number * number)) :=
  [("temp", (PyInt (-20), PyInt 80)); ("hum", (PyInt 0, PyInt 100))].

(** [--temp-range 80 -20] *)
Definition inverted : number * number :=
  (PyFloat (dec false 80 0), PyFloat (dec true 20 0)).

Definition inverted_ranges : list (string * (number * number)) :=
  [("temp", inverted); ("hum", (PyInt 0, PyInt 100))].

(** The same option, as the command line holds it. *)
Definition inverted_arg : range_arg :=
  GivenRange (dec false 80 0) (dec true 20 0).

(** A range that a caller of [validate] can pass, of ints, the first of
    4301 digits: [(10**4300, 0)]. *)
Definition huge_ranges : list (string * (number * number)) :=
  [("temp", (PyInt (10 ^ 4300), PyInt 0)); ("hum", (PyInt 0, PyInt 100))].

(** [{"temp": [25.0], "hum": []}] *)
Definition one_reading : list (string * list pyfloat) :=
  [("temp", [dec false 25 0]); ("hum", [])].

(** The readings of the document of test_main_out_of_range. *)
Definition bad_readings : flat := mk_flat [dec true 30 0] [dec false 150 0].

Definition sample_readings : flat :=
  mk_flat [dec false 25 0; dec false 26 0] [dec false 45 0].

(** A session in which connect fails and close fails too. *)
Definition ssh_refused : ssh_world :=
  mk_ssh_world None None (Some (mk_exn SSHException "Connection failed")) None
               (inr EmptyString) (inr EmptyString)
               (Some (mk_exn OSError "Socket is closed")).

(** A session that succeeds, with a warning on stderr and a failing close. *)
Definition ssh_noisy : ssh_world :=
  mk_ssh_world None None None None (inr "sensors: warning") (inr "{}")
               (Some (mk_exn OSError "Socket is closed")).

End Input.

(** ** Views of a log and of a session *)

Definition conn_ops (l : list event) : list conn_op :=
  flat_map (fun ev => match ev with Conn op => [op] | _ => [] end) l.

Definition stdout_lines (l : list event) : list string :=
  flat_map (fun ev => match ev with Print Stdout s => [s] | _ => [] end) l.

Definition stderr_lines (l : list event) : list string :=
  flat_map (fun ev => match ev with Print Stderr s => [s] | _ => [] end) l.

Definition calls (l : list event) : list func :=
  flat_map (fun ev => match ev with Call f => [f] | _ => [] end) l.

(** The operations of [ssh_run] on a client, in the order of the source. *)
Definition ssh_script (key : option string) (cmd : string) : list conn_op :=
  [SetPolicy; Connect (truthy key); ExecCommand cmd; ReadStderr; ReadStdout].

(** How many of them a session lets [ssh_run] start. *)
Definition steps_started (w : ssh_world) : nat :=
  match set_policy w with
  | Some _ => 1
  | None =>
      match connect w with
      | Some _ => 2
      | None =>
          match exec_command w with
          | Some _ => 3
          | None =>
              match stderr_read w with
              | inl _ => 4
              | inr _ => 5
              end
          end
      end
  end%nat.

(** The first failure of a session, or the text of stdout. *)
Definition ssh_outcome (w : ssh_world) : exn + string :=
  match new_client w with
  | Some e => inl e
  | None =>
      match set_policy w with
      | Some e => inl e
      | None =>
          match connect w with
          | Some e => inl e
          | None =>
              match exec_command w with
              | Some e => inl e
              | None =>
                  match stderr_read w with
                  | inl e => inl e
                  | inr _ => stdout_read w
                  end
              end
          end
      end
  end.

(** The text that the command wrote to stderr, when it was read. *)
Definition remote_stderr (w : ssh_world) : option string :=
  match new_client w, set_policy w, connect w, exec_command w, stderr_read w with
  | None, None, None, None, inr err => Some err
  | _, _, _, _, _ => None
  end.

(** The diagnostics of a session, in order. *)
Definition ssh_diagnostics (w : ssh_world) : list string :=
  (match remote_stderr w with
   | Some err => if String.eqb err EmptyString then []
                 else [("SSH command error: " ++ err)%string]
   | None => []
   end
   ++ match ssh_outcome w with
      | inl e => [("SSH operation failed: " ++ exn_msg e)%string]
      | inr _ => []
      end
   ++ match new_client w, close w with
      | None, Some e =>
          [("Warning: Failed to close SSH connection: " ++ exn_msg e)%string]
      | _, _ => []
      end)%list.

(** ** Further notions on documents and readings *)

Definition is_int (v : json) : bool :=
  match v with JInt _ => true | _ => false end.

(** No field of the document holds an int. *)
Definition int_free (d : json) : bool :=
  forallb (fun f => negb (is_int (snd f))) (fields_of d).

(** A field that becomes a reading. *)
Definition is_reading (field : string * json) : bool :=
  is_temp field || is_hum field.

Definition attribute_error (v : json) (attr : string) : exn :=
  mk_exn AttributeError
         ("'" ++ type_name v ++ "' object has no attribute '" ++ attr ++ "'").

Definition key_error (key : string) : exn := mk_exn KeyError (repr_str key).

(** For every kind of [vals], the range of [ranges'] holds the one of
    [ranges]: min' <= min and max <= max'. *)
Definition wider (ranges' ranges : list (string * (number * number)))
    (vals : list (string * list pyfloat)) : bool :=
  forallb (fun kl =>
             num_le (fst (range_of ranges' (fst kl))) (fst (range_of ranges (fst kl)))
             && num_le (snd (range_of ranges (fst kl))) (snd (range_of ranges' (fst kl))))
          vals.

Definition same_connection (a b : args) : Prop :=
  host a = host b /\ user a = user b /\ password a = password b
  /\ key a = key b /\ port a = port b.

(** ** sensors_emulator

    The script builds one chip with [num_temps] temperature fields and
    [num_hums] humidity fields and prints it as JSON.  [num_temps] and
    [num_hums] are the integers read from the environment;
    [rand_temp i] and [rand_hum i] are the floats that iteration [i]
    stores, [round(random.uniform(..) * 1000, 2)]. *)

(** [range(a, b)] *)
Definition py_range (a b : Z) : list Z :=
  map (fun i => a + Z.of_nat i) (seq 0 (Z.to_nat (b - a))).

(** [d[key] = v]: the value of a key that is there is replaced in place,
    a new key goes to the end. *)
Fixpoint dict_set {V} (d : list (string * V)) (key : string) (v : V)
    : list (string * V) :=
  match d with
  | [] => [(key, v)]
  | (k, x) :: t =>
      if String.eqb k key then (k, v) :: t else (k, x) :: dict_set t key v
  end.

(** [f"temp{i}_input"] and [f"humidity{i}_input"] *)
Definition temp_label (i : Z) : string := "temp" ++ str_int i ++ "_input".
Definition hum_label (i : Z) : string := "humidity" ++ str_int i ++ "_input".

Definition emulator_chip (num_temps num_hums : Z) (rand_temp rand_hum : Z -> pyfloat)
    : list (string * json) :=
  let chip :=
    fold_left (fun chip i => dict_set chip (temp_label i) (JFloat (rand_temp i)))
              (py_range 1 (num_temps + 1)) [] in
  fold_left (fun chip i => dict_set chip (hum_label i) (JFloat (rand_hum i)))
            (py_range 1 (num_hums + 1)) chip.

(** The document that the script serializes. *)
Definition emulator_doc (num_temps num_hums : Z) (rand_temp rand_hum : Z -> pyfloat)
    : json :=
  JObj [("emulator", JObj (emulator_chip num_temps num_hums rand_temp rand_hum))].

(** [round(v / 1000, 1)] on a float. *)
Definition float_reading (v : pyfloat) : pyfloat :=
  round1 (float_div v (float_of_Z 1000)).

(** ** What stdout and the conversion to text take *)

(** The warning on the field, if it has one, can be printed. *)
Definition warning_ok (field : string * json) : bool :=
  is_numeric (snd field) || encodable (skip_warning (fst field)).

(** No non-numeric field of the document has a name with a lone
    surrogate. *)
Definition names_encodable (d : json) : bool := forallb warning_ok (fields_of d).

Definition printable_range (r : number * number) : bool :=
  printable (fst r) && printable (snd r).

(** The bounds of the kinds of [vals] have a text: no int among them has
    more digits than the limit. *)
Definition printable_ranges (ranges : list (string * (number * number)))
    (vals : list (string * list pyfloat)) : bool :=
  forallb (fun kl => printable_range (range_of ranges (fst kl))) vals.

(** The name \ud800, a lone surrogate, as a JSON text can give it. *)
Definition lone_surrogate : string :=
  String (ascii_of_nat 237) (String (ascii_of_nat 160)
    (String (ascii_of_nat 128) EmptyString)).

(** [{"c": {"\ud800": "x"}}]: a field that is not numeric, under a name
    that stdout cannot encode. *)
Definition surrogate_doc : json :=
  JObj [("c", JObj [(lone_surrogate, JStr "x")])].









(** * Properties *)

(** ** The monad *)

Section MonadLaws.
Context {A B C : Type}.

Lemma bind_ret_l (a : A) (k : A -> M B) : bind (ret a) k = k a.
Proof. unfold bind, ret. destruct (k a). reflexivity. Qed.

Lemma bind_ret_r (m : M A) : bind m ret = m.
Proof.
  destruct m as [l [a | e | c]]; unfold bind, ret; try reflexivity.
  now rewrite app_nil_r.
Qed.

Lemma bind_assoc (m : M A) (k : A -> M B) (h : B -> M C) :
  bind (bind m k) h = bind m (fun a => bind (k a) h).
Proof.
  destruct m as [l [a | e | c]]; unfold bind; try reflexivity.
  destruct (k a) as [l1 [b | e | c]]; try reflexivity.
  destruct (h b) as [l2 o]. now rewrite app_assoc.
Qed.

Lemma bind_returns (m : M A) (k : A -> M B) l a :
  m = (l, Ret a) -> bind m k = ((l ++ log (k a))%list, result (k a)).
Proof. intros ->. unfold bind, log, result. now destruct (k a). Qed.

Lemma bind_raises (m : M A) (k : A -> M B) l e :
  m = (l, Raise e) -> bind m k = (l, Raise e).
Proof. now intros ->. Qed.

Lemma bind_exits (m : M A) (k : A -> M B) l c :
  m = (l, Exit c) -> bind m k = (l, Exit c).
Proof. now intros ->. Qed.
End MonadLaws.

Lemma emit_bind {B} (ev : event) (k : unit -> M B) :
  bind (emit ev) k = (ev :: log (k tt), result (k tt)).
Proof. unfold bind, emit, log, result. now destruct (k tt). Qed.

Lemma surjective_run {A} (m : M A) : m = (log m, result m).
Proof. now destruct m. Qed.

Lemma bind_ext {A B} (m : M A) (k k' : A -> M B) :
  (forall a, k a = k' a) -> bind m k = bind m k'.
Proof.
  intros H. destruct m as [l [a | e | c]]; unfold bind; try reflexivity.
  now rewrite H.
Qed.

Lemma for_each_app {A S} (l1 l2 : list A) (body : S -> A -> M S) (s : S) :
  for_each (l1 ++ l2) body s = bind (for_each l1 body s) (for_each l2 body).
Proof.
  revert s. induction l1 as [| x t IH]; intros s.
  - change (for_each [] body s) with (ret s). now rewrite bind_ret_l.
  - change (for_each ((x :: t) ++ l2) body s)
      with (bind (body s x) (for_each (t ++ l2) body)).
    change (for_each (x :: t) body s) with (bind (body s x) (for_each t body)).
    rewrite bind_assoc. apply bind_ext. intros s'. apply IH.
Qed.

(** ** flatten_sensors *)

Lemma temp_not_humidity (label : string) :
  startswith label "temp" = true -> startswith label "humidity" = false.
Proof.
  unfold startswith. destruct label as [| c rest]; cbn [String.prefix].
  - intros H. discriminate H.
  - destruct (ascii_dec "t" c) as [<- | _]; [| intros H; discriminate H].
    intros _. now destruct (ascii_dec "h" "t").
Qed.

Lemma div1000_log (val : json) : log (div1000 val) = [].
Proof.
  destruct val as [| b | z | f | s | l | l]; simpl; try reflexivity.
  - now destruct (int_true_div (if b then 1 else 0) 1000).
  - now destruct (int_true_div z 1000).
Qed.

Lemma div1000_never_exits (val : json) c : result (div1000 val) <> Exit c.
Proof.
  destruct val as [| b | z | f | s | l | l]; simpl; try discriminate.
  - now destruct (int_true_div (if b then 1 else 0) 1000).
  - now destruct (int_true_div z 1000).
Qed.


Lemma reading_some (val : json) r :
  reading val = Some r -> exists q, div1000 val = ret q /\ r = round1 q.
Proof.
  unfold reading. intros H.
  pose proof (div1000_log val) as Hl.
  destruct (div1000 val) as [l [q | e | c]]; simpl in *; try discriminate.
  subst l. exists q. unfold ret. split; congruence.
Qed.


(** One field, when its conversion is defined and its warning can be
    printed: the warning if it is not numeric, the reading appended if it
    is a temperature or a humidity. *)
Lemma flatten_field_ok (fl : flat) (field : string * json) :
  convertible field = true ->
  warning_ok field = true ->
  exists fl',
    flatten_field fl field = (warnings_of [field], Ret fl')
    /\ map Some (temp fl') = (map Some (temp fl) ++ temp_of [field])%list
    /\ map Some (hum fl') = (map Some (hum fl) ++ hum_of [field])%list.
Proof.
  destruct field as [label val].
  unfold convertible, warning_ok, temp_of, hum_of, warnings_of, is_temp, is_hum,
    is_input, flatten_field; cbn [fst snd filter map].
  destruct (is_numeric val) eqn:Hn; cbn [negb andb orb filter map fst snd].
  2:{ intros _ He. unfold print_encoded. rewrite He.
      exists fl. now rewrite !app_nil_r. }
  intros Hc _. revert Hc.
  destruct (endswith label "_input") eqn:He; cbn [negb andb orb filter map].
  2:{ intros _. exists fl. now rewrite !app_nil_r. }
  destruct (reading val) as [r |] eqn:Hr; [intros _ | discriminate].
  destruct (reading_some _ _ Hr) as (q & Hq & ->).
  rewrite Hq, bind_ret_l.
  destruct (startswith label "temp") eqn:Ht.
  - rewrite (temp_not_humidity _ Ht). cbn [map snd]. rewrite Hr.
    eexists. split; [reflexivity |]. cbn [temp hum].
    now rewrite map_app, app_nil_r.
  - destruct (startswith label "humidity") eqn:Hh; cbn [map snd].
    + rewrite Hr. eexists. split; [reflexivity |]. cbn [temp hum].
      now rewrite map_app, app_nil_r.
    + exists fl. now rewrite !app_nil_r.
Qed.

Lemma warnings_of_app (l1 l2 : list (string * json)) :
  warnings_of (l1 ++ l2) = (warnings_of l1 ++ warnings_of l2)%list.
Proof. unfold warnings_of. now rewrite filter_app, map_app. Qed.

Lemma temp_of_app (l1 l2 : list (string * json)) :
  temp_of (l1 ++ l2) = (temp_of l1 ++ temp_of l2)%list.
Proof. unfold temp_of. now rewrite filter_app, map_app. Qed.

Lemma hum_of_app (l1 l2 : list (string * json)) :
  hum_of (l1 ++ l2) = (hum_of l1 ++ hum_of l2)%list.
Proof. unfold hum_of. now rewrite filter_app, map_app. Qed.

Lemma flatten_fields_ok (fs : list (string * json)) :
  forallb convertible fs = true ->
  forallb warning_ok fs = true ->
  forall fl, exists fl',
    for_each fs flatten_field fl = (warnings_of fs, Ret fl')
    /\ map Some (temp fl') = (map Some (temp fl) ++ temp_of fs)%list
    /\ map Some (hum fl') = (map Some (hum fl) ++ hum_of fs)%list.
Proof.
  induction fs as [| f t IH]; intros Hc Hp fl.
  - exists fl. now rewrite !app_nil_r.
  - cbn [forallb] in Hc, Hp.
    apply andb_true_iff in Hc as [Hf Ht]. apply andb_true_iff in Hp as [Hpf Hpt].
    destruct (flatten_field_ok fl f Hf Hpf) as (fl1 & E1 & T1 & H1).
    destruct (IH Ht Hpt fl1) as (fl2 & E2 & T2 & H2).
    exists fl2.
    change (f :: t) with ([f] ++ t)%list.
    rewrite warnings_of_app, temp_of_app, hum_of_app, !app_assoc, <- T1, <- H1.
    split; [| now split].
    change (for_each ([f] ++ t)%list flatten_field fl)
      with (bind (flatten_field fl f) (for_each t flatten_field)).
    rewrite (bind_returns _ _ _ _ E1), E2. reflexivity.
Qed.

Lemma flatten_chips_ok (chips : list (string * json)) :
  forallb (fun c => is_mapping (snd c)) chips = true ->
  forallb convertible (fields_of (JObj chips)) = true ->
  forallb warning_ok (fields_of (JObj chips)) = true ->
  forall fl, exists fl',
    for_each (map snd chips) flatten_chip fl
    = (warnings_of (fields_of (JObj chips)), Ret fl')
    /\ map Some (temp fl') = (map Some (temp fl) ++ temp_of (fields_of (JObj chips)))%list
    /\ map Some (hum fl') = (map Some (hum fl) ++ hum_of (fields_of (JObj chips)))%list.
Proof.
  induction chips as [| [name chip] t IH]; intros Hw Hc Hp fl.
  - exists fl. now rewrite !app_nil_r.
  - cbn [forallb snd] in Hw. cbn [fields_of flat_map snd] in Hc, Hp.
    apply andb_true_iff in Hw as [Hm Hw].
    rewrite forallb_app in Hc. apply andb_true_iff in Hc as [Hc1 Hc2].
    rewrite forallb_app in Hp. apply andb_true_iff in Hp as [Hp1 Hp2].
    destruct chip as [| | | | | | fs]; try discriminate. cbn [fields_of_chip] in Hc1, Hp1.
    destruct (flatten_fields_ok fs Hc1 Hp1 fl) as (fl1 & E1 & T1 & H1).
    destruct (IH Hw Hc2 Hp2 fl1) as (fl2 & E2 & T2 & H2).
    exists fl2. cbn [fields_of flat_map snd fields_of_chip] in *.
    rewrite warnings_of_app, temp_of_app, hum_of_app, !app_assoc, <- T1, <- H1.
    split; [| now split].
    change (for_each (map snd ((name, JObj fs) :: t)) flatten_chip fl)
      with (bind (flatten_chip fl (JObj fs)) (for_each (map snd t) flatten_chip)).
    unfold flatten_chip at 1. cbn [items]. rewrite bind_ret_l.
    rewrite (bind_returns _ _ _ _ E1), E2. reflexivity.
Qed.

Lemma flatten_sensors_returns (d : json) :
  wf_doc d = true ->
  no_overflow d = true ->
  names_encodable d = true ->
  exists fl,
    flatten_sensors d
    = ((Call F_flatten_sensors :: warnings_of (fields_of d))%list, Ret fl)
    /\ map Some (temp fl) = temp_of (fields_of d)
    /\ map Some (hum fl) = hum_of (fields_of d).
Proof.
  destruct d as [| | | | | | chips]; try discriminate.
  unfold wf_doc, no_overflow, names_encodable. intros Hw Hc Hp.
  destruct (flatten_chips_ok chips Hw Hc Hp (mk_flat [] [])) as (fl & E & T & H).
  exists fl. split; [| now split].
  unfold flatten_sensors, call. rewrite emit_bind.
  cbn [values]. rewrite bind_ret_l, E. reflexivity.
Qed.









(** C1, as amended: for every well-formed Raw Sensor Document in which no
    int under a numeric '_input' field is too large for the division by
    1000 and no non-numeric field has a name that stdout cannot encode (a
    lone surrogate), flatten_sensors returns temp and hum where temp is
    exactly the sequence, in encounter order over chips and fields, of
    round(v/1000, 1) for each numeric value v whose field name ends with
    '_input' and starts with 'temp', and hum likewise for 'humidity';
    every other field contributes to neither sequence, and the only
    output is one warning per non-numeric field. *)
Theorem flatten_sensors_readings (d : json) :
  wf_doc d = true ->
  no_overflow d = true ->
  names_encodable d = true ->
  exists fl,
    flatten_sensors d
    = ((Call F_flatten_sensors :: warnings_of (fields_of d))%list, Ret fl)
    /\ map Some (temp fl) = temp_of (fields_of d)
    /\ map Some (hum fl) = hum_of (fields_of d).
Proof.
  intros Hw Hc Hp. destruct d as [| | | | | | chips]; try discriminate Hw.
  destruct (flatten_chips_ok chips Hw Hc Hp (mk_flat [] [])) as (fl & E & T & H).
  exists fl. cbn [map app] in T, H.
  split; [| split; assumption].
  unfold flatten_sensors, call. rewrite emit_bind.
  cbn [values]. rewrite bind_ret_l, E. reflexivity.
Qed.


Lemma div1000_bool (b : bool) :
  exists q, div1000 (JBool b) = ret q /\ round1 q = zero.
Proof. destruct b; eexists; split; vm_compute; reflexivity. Qed.

Lemma flatten_field_bool (fl : flat) (label : string) (b : bool) :
  endswith label "_input" = true ->
  flatten_field fl (label, JBool b) = ret (append_reading label zero fl).
Proof.
  intros He. unfold flatten_field. cbn [is_numeric negb]. rewrite He. cbn [negb].
  destruct (div1000_bool b) as (q & -> & Hq).
  rewrite bind_ret_l, Hq. unfold append_reading.
  destruct (startswith label "temp"); [reflexivity |].
  now destruct (startswith label "humidity").
Qed.

(** C9: a boolean under a field whose name ends with '_input' is taken
    as numeric.  Its reading round(b/1000, 1) is 0.0 for true and for
    false; the step of the loop on it prints no warning and appends 0.0
    to temp when the name starts with 'temp' and to hum when it starts
    with 'humidity'; and the flattening of any document that holds such a
    field is the flattening of what comes before it, the append, and the
    flattening of what comes after it, so the boolean counts as one more
    reading. *)
Theorem flatten_sensors_bool
    (cs1 : list (string * json)) (c : string) (fs1 : list (string * json))
    (label : string) (b : bool) (fs2 cs2 : list (string * json)) :
  endswith label "_input" = true ->
  startswith label "temp" = true \/ startswith label "humidity" = true ->
  reading (JBool b) = Some zero
  /\ (forall fl,
        flatten_field fl (label, JBool b)
        = ([], Ret (if startswith label "temp"
                    then mk_flat (temp fl ++ [zero]) (hum fl)
                    else mk_flat (temp fl) (hum fl ++ [zero]))))
  /\ flatten_sensors
       (JObj (cs1 ++ (c, JObj (fs1 ++ (label, JBool b) :: fs2)) :: cs2))
     = (call F_flatten_sensors ;;
        fl <- for_each (map snd cs1) flatten_chip (mk_flat [] []) ;;
        fl <- for_each fs1 flatten_field fl ;;
        fl <- for_each fs2 flatten_field (append_reading label zero fl) ;;
        for_each (map snd cs2) flatten_chip fl).
Proof.
  intros He Hp. split; [| split].
  - now destruct b.
  - intros fl. rewrite (flatten_field_bool fl label b He).
    unfold append_reading, ret.
    destruct (startswith label "temp"); [reflexivity |].
    destruct Hp as [Hp | ->]; [discriminate Hp | reflexivity].
  - unfold flatten_sensors. apply bind_ext. intros _.
    cbn [values]. rewrite bind_ret_l, map_app, for_each_app.
    apply bind_ext. intros fl.
    change (map snd ((c, JObj (fs1 ++ (label, JBool b) :: fs2)) :: cs2))
      with (JObj (fs1 ++ (label, JBool b) :: fs2) :: map snd cs2).
    change (for_each (JObj (fs1 ++ (label, JBool b) :: fs2) :: map snd cs2)
              flatten_chip fl)
      with (bind (flatten_chip fl (JObj (fs1 ++ (label, JBool b) :: fs2)))
                 (for_each (map snd cs2) flatten_chip)).
    unfold flatten_chip at 1. cbn [items]. rewrite bind_ret_l, for_each_app.
    rewrite !bind_assoc. apply bind_ext. intros fl1.
    change (for_each ((label, JBool b) :: fs2) flatten_field fl1)
      with (bind (flatten_field fl1 (label, JBool b)) (for_each fs2 flatten_field)).
    now rewrite (flatten_field_bool fl1 label b He), bind_ret_l.
Qed.




(** ** validate *)

Lemma xreal_leb_trans (a b c : xreal) :
  xreal_leb a b = true -> xreal_leb b c = true -> xreal_leb a c = true.
Proof.
  destruct a as [| p |], b as [| q |], c as [| r |]; simpl; try easy.
  rewrite !Qle_bool_iff. apply Qle_trans.
Qed.

(** With the minimum above the maximum no value is within the range. *)
Lemma inverted_never_within (lo hi : number) (v : pyfloat) :
  num_lt hi lo = true -> within lo v hi = false.
Proof.
  unfold num_lt, within, num_le. cbn [num_value].
  destruct (num_value hi) as [b |]; [| discriminate].
  destruct (num_value lo) as [a |]; [| discriminate].
  destruct (float_value v) as [x |]; [| reflexivity].
  intros H. apply negb_true_iff in H.
  destruct (xreal_leb a x) eqn:H1; [| reflexivity].
  destruct (xreal_leb x b) eqn:H2; [| reflexivity].
  now rewrite (xreal_leb_trans _ _ _ H1 H2) in H.
Qed.

(** Without NaN, "not within" is "below the minimum or above the maximum". *)
Lemma not_within_outside (lo hi : number) (v : pyfloat) :
  is_ordered lo = true -> is_ordered hi = true -> is_ordered (PyFloat v) = true ->
  negb (within lo v hi) = outside lo v hi.
Proof.
  unfold is_ordered, within, outside, num_le, num_lt. cbn [num_value].
  destruct (num_value lo), (num_value hi), (float_value v); try discriminate.
  intros _ _ _. apply negb_andb.
Qed.

(** With bounds that have a text, the f-string is the text of the issue. *)
Lemma issue_line_printable (kind : string) (i : Z) (v : pyfloat) (lo hi : number) :
  printable_range (lo, hi) = true ->
  issue_line kind i v lo hi = ret (issue_text kind i v lo hi).
Proof.
  unfold printable_range. cbn [fst snd]. intros H.
  apply andb_true_iff in H as [Hlo Hhi].
  unfold issue_line, format_num. rewrite Hlo, Hhi. now rewrite !bind_ret_l.
Qed.

(** With an int bound beyond the limit of digits, it raises ValueError. *)
Lemma issue_line_fails (kind : string) (i : Z) (v : pyfloat) (lo hi : number) :
  printable_range (lo, hi) = false ->
  issue_line kind i v lo hi = raise str_limit_error.
Proof.
  unfold printable_range. cbn [fst snd]. intros H.
  unfold issue_line, format_num.
  destruct (printable lo); [| reflexivity].
  cbn [andb] in H. rewrite H. now rewrite bind_ret_l.
Qed.

Lemma validate_values (kind : string) (lo hi : number)
    (l : list (Z * pyfloat)) (issues : list string) :
  printable_range (lo, hi) = true ->
  for_each l
    (fun issues iv =>
       let '(i, v) := iv in
       if negb (within lo v hi) then
         line <- issue_line kind i v lo hi ;;
         ret (issues ++ [line])%list
       else ret issues)
    issues
  = ret (issues
         ++ map (fun iv => issue_text kind (fst iv) (snd iv) lo hi)
                (filter (fun iv => negb (within lo (snd iv) hi)) l))%list.
Proof.
  intros Hp. revert issues. induction l as [| [i v] t IH]; intros issues.
  - cbn [for_each filter map]. now rewrite app_nil_r.
  - cbn [for_each filter snd]. destruct (negb (within lo v hi)).
    + rewrite (issue_line_printable kind i v lo hi Hp), !bind_ret_l, IH.
      cbn [map fst snd]. now rewrite <- app_assoc.
    + now rewrite bind_ret_l, IH.
Qed.

Lemma validate_kind_eq (kind : string) (lo hi : number) (lst : list pyfloat)
    (issues : list string) :
  printable_range (lo, hi) = true ->
  validate_kind kind lo hi lst issues
  = ret (issues ++ issues_of kind (lo, hi) lst)%list.
Proof. intros Hp. unfold validate_kind, issues_of. now apply validate_values. Qed.

Lemma dict_get_lookup {V} (d : list (string * V)) (key : string) (v : V) :
  lookup d key = Some v -> dict_get d key = ret v.
Proof.
  induction d as [| [k x] t IH]; cbn [lookup dict_get]; [discriminate |].
  destruct (String.eqb k key); [congruence | exact IH].
Qed.

Lemma validate_loop (ranges : list (string * (number * number)))
    (vals : list (string * list pyfloat)) (issues : list string) :
  covers ranges vals = true ->
  printable_ranges ranges vals = true ->
  for_each vals
    (fun issues kl =>
       let '(kind, lst) := kl in
       r <- dict_get ranges kind ;;
       let '(lo, hi) := r in
       validate_kind kind lo hi lst issues)
    issues
  = ret (issues ++ all_issues vals ranges)%list.
Proof.
  unfold covers, printable_ranges, all_issues. revert issues.
  induction vals as [| [kind lst] t IH]; intros issues Hc Hp.
  - cbn [for_each flat_map]. now rewrite app_nil_r.
  - cbn [forallb fst] in Hc, Hp.
    apply andb_true_iff in Hc as [Hk Ht]. apply andb_true_iff in Hp as [Hpk Hpt].
    cbn [for_each flat_map fst snd]. unfold range_of at 1. unfold range_of in Hpk.
    destruct (lookup ranges kind) as [[lo hi] |] eqn:Hl; [| discriminate].
    rewrite (dict_get_lookup _ _ _ Hl), bind_ret_l.
    rewrite (validate_kind_eq kind lo hi lst issues Hpk), bind_ret_l.
    rewrite (IH _ Ht Hpt). now rewrite <- app_assoc.
Qed.

Lemma validate_eq (vals : list (string * list pyfloat))
    (ranges : list (string * (number * number))) :
  covers ranges vals = true ->
  printable_ranges ranges vals = true ->
  validate vals ranges = ([Call F_validate], Ret (all_issues vals ranges)).
Proof.
  intros Hc Hp. unfold validate, call. rewrite emit_bind.
  now rewrite (validate_loop ranges vals [] Hc Hp).
Qed.

Lemma issues_of_none (kind : string) (r : number * number) (lst : list pyfloat) :
  forallb (fun v => within (fst r) v (snd r)) lst = true ->
  issues_of kind r lst = [].
Proof.
  unfold issues_of. generalize 1. induction lst as [| v t IH]; intros i H.
  - reflexivity.
  - cbn [forallb] in H. apply andb_true_iff in H as [Hv Ht].
    cbn [enumerate filter snd]. rewrite Hv. cbn [negb]. now apply IH.
Qed.

Lemma issues_of_specified (kind : string) (r : number * number) (lst : list pyfloat) :
  nan_free r lst = true -> issues_of kind r lst = issues_as_specified kind r lst.
Proof.
  unfold nan_free, issues_of, issues_as_specified. intros H.
  apply andb_true_iff in H as [H Hl]. apply andb_true_iff in H as [Hlo Hhi].
  f_equal. generalize 1. induction lst as [| v t IH]; intros i; [reflexivity |].
  cbn [forallb] in Hl. apply andb_true_iff in Hl as [Hv Ht].
  cbn [enumerate filter snd]. rewrite (not_within_outside _ _ _ Hlo Hhi Hv).
  now rewrite (IH Ht).
Qed.

Lemma issues_of_inverted (kind : string) (lo hi : number) (lst : list pyfloat) :
  num_lt hi lo = true ->
  issues_of kind (lo, hi) lst
  = map (fun iv => issue_text kind (fst iv) (snd iv) lo hi) (enumerate lst 1).
Proof.
  intros H. unfold issues_of. cbn [fst snd]. f_equal.
  generalize 1. induction lst as [| v t IH]; intros i; [reflexivity |].
  cbn [enumerate filter snd]. rewrite (inverted_never_within lo hi v H).
  cbn [negb]. now rewrite IH.
Qed.

(** C3, as amended: for every readings map and every ranges map that
    gives (min, max) for each of its kinds, no int bound having more
    digits than the conversion to text allows, validate returns, for
    each kind in order and each value at 1-based position i for which
    min <= value <= max does not hold, exactly one string
    "{kind}{i}: {value} out of {min}..{max}", and nothing else.  Where
    neither a value nor a bound is NaN, these are the values with
    value < min or value > max; and the list is empty when every value
    lies in its closed interval, empty sequences included. *)
Theorem validate_issues (vals : list (string * list pyfloat))
    (ranges : list (string * (number * number))) :
  covers ranges vals = true ->
  printable_ranges ranges vals = true ->
  validate vals ranges = ([Call F_validate], Ret (all_issues vals ranges))
  /\ (forall kind lst, In (kind, lst) vals ->
        nan_free (range_of ranges kind) lst = true ->
        issues_of kind (range_of ranges kind) lst
        = issues_as_specified kind (range_of ranges kind) lst)
  /\ (all_within vals ranges = true -> all_issues vals ranges = []).
Proof.
  intros Hc Hp. split; [now apply validate_eq | split].
  - intros kind lst _. apply issues_of_specified.
  - unfold all_within, all_issues. clear Hc Hp.
    induction vals as [| [kind lst] t IH]; intros H; [reflexivity |].
    cbn [forallb fst snd] in H. apply andb_true_iff in H as [Hk Ht].
    cbn [flat_map fst snd]. now rewrite (issues_of_none _ _ _ Hk), (IH Ht).
Qed.

(** C4, as amended: for every range with min > max whose bounds have a
    text (no int among them with more digits than the conversion
    allows) and every sequence of readings of that kind, validate
    returns without an error, and its issues hold one Validation Issue
    for every value of the sequence: the issues of that kind are those
    of all its values, in order. *)
Theorem validate_inverted_range (vals : list (string * list pyfloat))
    (ranges : list (string * (number * number)))
    (kind : string) (lst : list pyfloat) (lo hi : number) :
  covers ranges vals = true ->
  printable_ranges ranges vals = true ->
  In (kind, lst) vals ->
  lookup ranges kind = Some (lo, hi) ->
  num_lt hi lo = true ->
  validate vals ranges = ([Call F_validate], Ret (all_issues vals ranges))
  /\ issues_of kind (lo, hi) lst
     = map (fun iv => issue_text kind (fst iv) (snd iv) lo hi) (enumerate lst 1)
  /\ (forall i v, In (i, v) (enumerate lst 1) ->
        In (issue_text kind i v lo hi) (all_issues vals ranges)).
Proof.
  intros Hc Hp Hin Hl Hinv. split; [now apply validate_eq | split].
  - now apply issues_of_inverted.
  - intros i v Hiv. unfold all_issues. apply in_flat_map.
    exists (kind, lst). split; [exact Hin |].
    cbn [fst snd]. unfold range_of. rewrite Hl.
    rewrite (issues_of_inverted kind lo hi lst Hinv).
    apply (in_map (fun iv => issue_text kind (fst iv) (snd iv) lo hi) _ (i, v) Hiv).
Qed.

(** ** ssh_run *)

Lemma after_close_split (l post : list event) :
  after_close l = Some post ->
  exists pre, l = (pre ++ Conn Close :: post)%list /\ ~ In (Conn Close) pre.
Proof.
  revert post. induction l as [| ev t IH]; intros post H; [discriminate |].
  assert (D : ev = Conn Close \/ (ev <> Conn Close /\ after_close t = Some post)).
  { destruct ev as [st line | [| k | c | | |] | f]; cbn [after_close] in H;
      try (right; split; [discriminate | exact H]).
    now left. }
  destruct D as [-> | [Hne Ht]].
  - cbn [after_close] in H. injection H as <-. exists []. now split.
  - destruct (IH post Ht) as (pre & -> & Hpre).
    exists (ev :: pre). split; [reflexivity |].
    intros [E | E]; [now apply Hne | now apply Hpre].
Qed.

Ltac ssh_cases w :=
  destruct w as [[e0 |] [e1 |] [e2 |] [e3 |] [e4 | [| ch err]] [e5 | out] [e6 |]].

Lemma ssh_run_close_last (w : ssh_world) (host user : string)
    (password key : option string) (cmd : string) (port : Z) :
  new_client w = None ->
  exists post,
    after_close (log (ssh_run w host user password key cmd port)) = Some post
    /\ forallb is_stderr post = true.
Proof.
  ssh_cases w; cbn [new_client]; intros H; try discriminate H;
    eexists; split; reflexivity.
Qed.

Lemma ssh_run_close_harmless (w : ssh_world) (host user : string)
    (password key : option string) (cmd : string) (port : Z) :
  result (ssh_run w host user password key cmd port)
  = result (ssh_run (set_close None w) host user password key cmd port).
Proof. ssh_cases w; reflexivity. Qed.

Lemma ssh_run_never_exits (w : ssh_world) (host user : string)
    (password key : option string) (cmd : string) (port : Z) (c : Z) :
  result (ssh_run w host user password key cmd port) <> Exit c.
Proof. ssh_cases w; discriminate. Qed.

Lemma ssh_run_no_later_stage (w : ssh_world) (host user : string)
    (password key : option string) (cmd : string) (port : Z) :
  forallb (fun ev => negb (later_stage ev))
          (log (ssh_run w host user password key cmd port)) = true.
Proof. ssh_cases w; reflexivity. Qed.

(** C8: on every path of ssh_run on which the client object was created
    (the stdout text returned, or connect, the command or a read having
    failed), close is invoked within ssh_run, exactly once and after
    every other operation on the connection: only the warning on a
    failed close may follow it.  How close ends does not change how
    ssh_run ends; when every other operation succeeds, ssh_run returns
    the stdout text even if close fails. *)
Theorem ssh_run_closes (w : ssh_world) (host user : string)
    (password key : option string) (cmd : string) (port : Z) :
  new_client w = None ->
  (exists pre post,
      log (ssh_run w host user password key cmd port)
      = (pre ++ Conn Close :: post)%list
      /\ ~ In (Conn Close) pre
      /\ ~ In (Conn Close) post
      /\ forallb is_stderr post = true)
  /\ result (ssh_run w host user password key cmd port)
     = result (ssh_run (set_close None w) host user password key cmd port)
  /\ (forall err out,
        set_policy w = None -> connect w = None -> exec_command w = None ->
        stderr_read w = inr err -> stdout_read w = inr out ->
        result (ssh_run w host user password key cmd port) = Ret out).
Proof.
  intros Hn. split; [| split].
  - destruct (ssh_run_close_last w host user password key cmd port Hn)
      as (post & Ha & Hp).
    destruct (after_close_split _ _ Ha) as (pre & E & Hpre).
    exists pre, post. repeat split; try assumption.
    intros Hin. rewrite forallb_forall in Hp. now specialize (Hp _ Hin).
  - apply ssh_run_close_harmless.
  - intros err out H1 H2 H3 H4 H5.
    destruct w as [nc sp co ex se so cl]. cbn in Hn, H1, H2, H3, H4, H5. subst.
    destruct cl, err; reflexivity.
Qed.

(** ** get_sensors_json *)

Lemma fetch_never_exits (w : world) (host user : string)
    (password key : option string) (port : Z) (c : Z) :
  result (fetch w host user password key port) <> Exit c.
Proof.
  unfold fetch.
  pose proof (ssh_run_never_exits (ssh w) host user password key "sensors -j" port) as Hs.
  destruct (ssh_run (ssh w) host user password key "sensors -j" port)
    as [l [raw | e | c']]; cbn [bind result] in *.
  - unfold json_loads, call. rewrite emit_bind.
    destruct (loads w raw); discriminate.
  - discriminate.
  - now destruct (Hs c').
Qed.

Lemma fetch_no_later_stage (w : world) (host user : string)
    (password key : option string) (port : Z) :
  forallb (fun ev => negb (later_stage ev))
          (log (fetch w host user password key port)) = true.
Proof.
  unfold fetch.
  pose proof (ssh_run_no_later_stage (ssh w) host user password key "sensors -j" port) as Hs.
  destruct (ssh_run (ssh w) host user password key "sensors -j" port)
    as [l [raw | e | c']]; cbn [bind log fst] in *; try exact Hs.
  unfold json_loads, call. rewrite emit_bind.
  destruct (loads w raw); cbn; rewrite forallb_app, Hs; reflexivity.
Qed.

Lemma get_sensors_json_returns (w : world) (host user : string)
    (password key : option string) (port : Z) l data :
  fetch w host user password key port = (l, Ret data) ->
  get_sensors_json w host user password key port = (l, Ret data).
Proof.
  intros H. unfold get_sensors_json. fold (fetch w host user password key port).
  now rewrite H.
Qed.

Lemma get_sensors_json_bad_data (w : world) (host user : string)
    (password key : option string) (port : Z) l e :
  fetch w host user password key port = (l, Raise e) ->
  is_bad_data e = true ->
  get_sensors_json w host user password key port
  = ((l ++ [Print Stdout (bad_data_line e)])%list, Exit 3).
Proof.
  intros H Hb. unfold get_sensors_json. fold (fetch w host user password key port).
  rewrite H. unfold is_bad_data in Hb. unfold bad_data_line.
  cbn [try_excepts try_except].
  destruct (is_TypeError e) eqn:Ht; [reflexivity |].
  destruct (is_JSONDecodeError e) eqn:Hj; [reflexivity |].
  cbn [orb] in Hb. rewrite Hb. reflexivity.
Qed.

Lemma JSONDecodeError_is_ValueError (e : exn) :
  is_JSONDecodeError e = true -> is_ValueError e = true.
Proof. unfold is_JSONDecodeError, is_ValueError. now destruct (exn_cls e). Qed.

Lemma get_sensors_json_raises (w : world) (host user : string)
    (password key : option string) (port : Z) l e :
  fetch w host user password key port = (l, Raise e) ->
  is_bad_data e = false ->
  get_sensors_json w host user password key port = (l, Raise e).
Proof.
  intros H Hb. unfold get_sensors_json. fold (fetch w host user password key port).
  rewrite H. unfold is_bad_data in Hb. apply orb_false_iff in Hb as [Ht Hv].
  cbn [try_excepts]. rewrite Ht, Hv.
  destruct (is_JSONDecodeError e) eqn:Hj; [| reflexivity].
  now rewrite (JSONDecodeError_is_ValueError e Hj) in Hv.
Qed.

(** ** main *)

Lemma try_except_bind_returns {A B} (m : M A) (k : A -> M B)
    (h : exn -> M B) l a :
  m = (l, Ret a) ->
  try_except (bind m k) any_exception h
  = ((l ++ log (try_except (k a) any_exception h))%list,
     result (try_except (k a) any_exception h)).
Proof.
  intros ->. unfold bind, try_except, any_exception, log, result.
  destruct (k a) as [l1 [b | e | c]]; cbn [fst snd]; try reflexivity.
  destruct (h e) as [l2 o]. cbn [fst snd]. now rewrite app_assoc.
Qed.

Lemma main_eq_from (w : world) (a : args) :
  main w a
  = bind (try_except
            (bind (get_sensors_json w (host a) (user a) (password a) (key a) (port a))
                  (fun data => bind (flatten_sensors data) (report a)))
            any_exception failed)
         (fun _ => all_ok).
Proof. reflexivity. Qed.

Lemma main_eq_acquire (w : world) (a : args) :
  main w a
  = bind (try_except
            (bind (acquire w (host a) (user a) (password a) (key a) (port a))
                  (report a))
            any_exception failed)
         (fun _ => all_ok).
Proof. rewrite main_eq_from. unfold acquire. now rewrite bind_assoc. Qed.

(** Once the document is read, [main] goes on from it. *)
Lemma main_fetched (w : world) (a : args) l data :
  fetch w (host a) (user a) (password a) (key a) (port a) = (l, Ret data) ->
  main w a = ((l ++ log (main_from a data))%list, result (main_from a data)).
Proof.
  intros H. rewrite main_eq_from.
  rewrite (try_except_bind_returns _ _ _ _ _ (get_sensors_json_returns _ _ _ _ _ _ _ _ H)).
  unfold main_from.
  destruct (try_except (bind (flatten_sensors data) (report a)) any_exception failed)
    as [l1 [u | e | c]]; cbn [log result fst snd bind]; try reflexivity.
  unfold all_ok, print. rewrite emit_bind. cbn [log result fst snd sys_exit].
  now rewrite app_assoc.
Qed.

Lemma main_bad_data (w : world) (a : args) l e :
  fetch w (host a) (user a) (password a) (key a) (port a) = (l, Raise e) ->
  is_bad_data e = true ->
  main w a = ((l ++ [Print Stdout (bad_data_line e)])%list, Exit 3).
Proof.
  intros H Hb. rewrite main_eq_from.
  now rewrite (get_sensors_json_bad_data _ _ _ _ _ _ _ _ H Hb).
Qed.

Lemma main_fetch_failed (w : world) (a : args) l e :
  fetch w (host a) (user a) (password a) (key a) (port a) = (l, Raise e) ->
  is_bad_data e = false ->
  main w a
  = ((l ++ [Print Stderr ("Failed to get sensor data: " ++ exn_msg e)])%list, Exit 1).
Proof.
  intros H Hb. rewrite main_eq_from.
  now rewrite (get_sensors_json_raises _ _ _ _ _ _ _ _ H Hb).
Qed.

Lemma report_raw (a : args) (vals : flat) :
  raw_json_output a = true ->
  report a vals = ([Print Stdout (json_dumps vals)], Exit 0).
Proof. intros H. unfold report. now rewrite H. Qed.

Lemma report_missing (a : args) (vals : flat) :
  raw_json_output a = false ->
  (len (temp vals) + len (hum vals) <? expected_sensors a) = true ->
  report a vals
  = ((summary vals
      ++ [Print Stdout (missing_line (expected_sensors a)
                          (len (temp vals) + len (hum vals)))])%list,
     Exit 1).
Proof. intros Hr Hm. unfold report. rewrite Hr, Hm. reflexivity. Qed.

Lemma print_issues (issues : list string) :
  for_each issues (fun _ issue => print ("- " ++ issue)) tt
  = (map (fun issue => Print Stdout ("- " ++ issue)) issues, Ret tt).
Proof.
  induction issues as [| i t IH]; [reflexivity |].
  cbn [for_each map]. unfold print at 1. rewrite emit_bind, IH. reflexivity.
Qed.

(** The ranges of the command line always have a text: the defaults are
    small ints, and what argparse converts is a float. *)
Lemma range_of_arg_printable (default : Z * Z) (r : range_arg) :
  str_allowed (fst default) = true -> str_allowed (snd default) = true ->
  printable_range (range_of_arg default r) = true.
Proof.
  intros H1 H2. destruct default as [lo hi]. destruct r as [| flo fhi].
  - unfold printable_range. cbn [range_of_arg fst snd printable] in *.
    now rewrite H1, H2.
  - reflexivity.
Qed.

Lemma ranges_of_printable (a : args) (vals : list (string * list pyfloat)) :
  covers (ranges_of a) vals = true ->
  printable_ranges (ranges_of a) vals = true.
Proof.
  assert (Ht : printable_range (temp_range a) = true)
    by (apply range_of_arg_printable; vm_compute; reflexivity).
  assert (Hh : printable_range (hum_range a) = true)
    by (apply range_of_arg_printable; vm_compute; reflexivity).
  unfold covers, printable_ranges, ranges_of.
  induction vals as [| [kind lst] t IH]; [reflexivity |].
  cbn [forallb fst]. intros H. apply andb_true_iff in H as [Hk Hc].
  rewrite (IH Hc), andb_true_r. clear IH Hc.
  unfold range_of in *. cbn [lookup] in *.
  destruct (String.eqb "temp" kind); [exact Ht |].
  destruct (String.eqb "hum" kind); [exact Hh | discriminate Hk].
Qed.

Lemma report_validated (a : args) (vals : flat) :
  raw_json_output a = false ->
  (len (temp vals) + len (hum vals) <? expected_sensors a) = false ->
  report a vals
  = match all_issues (flat_items vals) (ranges_of a) with
    | [] => ((summary vals ++ [Call F_validate])%list, Ret tt)
    | issues =>
        ((summary vals ++ Call F_validate :: Print Stdout "ISSUES:"
            :: map (fun issue => Print Stdout ("- " ++ issue)) issues)%list,
         Exit 2)
    end.
Proof.
  intros Hr Hm. unfold report. rewrite Hr, Hm.
  cbn [when]. rewrite bind_ret_l.
  unfold print. rewrite !emit_bind. rewrite bind_ret_l.
  fold (ranges_of a).
  assert (Hc : covers (ranges_of a) (flat_items vals) = true) by reflexivity.
  rewrite (validate_eq _ _ Hc (ranges_of_printable _ _ Hc)).
  destruct (all_issues (flat_items vals) (ranges_of a)) as [| i t] eqn:Hi.
  - reflexivity.
  - cbn [bind nonempty when]. fold (print "ISSUES:"). unfold print at 1.
    rewrite emit_bind. fold print.
    rewrite (bind_returns _ _ _ _ (print_issues (i :: t))).
    unfold summary. cbn [log result fst snd sys_exit app].
    now rewrite app_nil_r.
Qed.

(** The handler of [main] and the line after the [try], applied to how
    the [try] body ends. *)
Lemma main_from_returns (a : args) (data : json) lf vals :
  flatten_sensors data = (lf, Ret vals) ->
  main_from a data
  = match result (report a vals) with
    | Ret _ =>
        ((lf ++ log (report a vals)
          ++ [Print Stdout "All sensors within range, exiting 0"])%list, Exit 0)
    | Raise e =>
        ((lf ++ log (report a vals)
          ++ [Print Stderr ("Failed to get sensor data: " ++ exn_msg e)])%list, Exit 1)
    | Exit c => ((lf ++ log (report a vals))%list, Exit c)
    end.
Proof.
  intros H. unfold main_from.
  rewrite (try_except_bind_returns _ _ _ _ _ H).
  destruct (report a vals) as [lr [u | e | c]];
    cbn [try_except any_exception log result fst snd bind failed eprint emit
         all_ok print sys_exit app];
    rewrite ?app_nil_r, ?app_assoc; reflexivity.
Qed.

Lemma main_from_raises (a : args) (data : json) lf e :
  flatten_sensors data = (lf, Raise e) ->
  main_from a data
  = ((lf ++ [Print Stderr ("Failed to get sensor data: " ++ exn_msg e)])%list, Exit 1).
Proof. intros H. unfold main_from. now rewrite (bind_raises _ _ _ _ H). Qed.

(** *** What the flattening leaves in the log, and how it ends *)

Lemma calm_ret {A} (a : A) : calm (ret a).
Proof. split; [reflexivity | discriminate]. Qed.

Lemma calm_raise {A} (e : exn) : calm (@raise A e).
Proof. split; [reflexivity | discriminate]. Qed.

Lemma calm_bind {A B} (m : M A) (k : A -> M B) :
  calm m -> (forall a, calm (k a)) -> calm (bind m k).
Proof.
  intros [Hl Hr] Hk. destruct m as [l [a | e | c]]; cbn [log result fst snd] in *.
  - destruct (Hk a) as [Hl' Hr']. unfold bind. destruct (k a) as [l' o].
    unfold calm, log, result in *. cbn [fst snd] in *. split; [| exact Hr'].
    unfold no_validate in *. now rewrite forallb_app, Hl, Hl'.
  - split; [exact Hl | discriminate].
  - now destruct (Hr c).
Qed.

Lemma calm_for_each {A S} (body : S -> A -> M S) (l : list A) :
  (forall s x, calm (body s x)) -> forall s, calm (for_each l body s).
Proof.
  intros Hb. induction l as [| x t IH]; intros s; [apply calm_ret |].
  cbn [for_each]. apply calm_bind; [apply Hb | exact IH].
Qed.

Lemma calm_div1000 (val : json) : calm (div1000 val).
Proof.
  split; [unfold no_validate; now rewrite div1000_log | apply div1000_never_exits].
Qed.

Lemma calm_flatten_field (fl : flat) (field : string * json) :
  calm (flatten_field fl field).
Proof.
  destruct field as [label val]. unfold flatten_field.
  destruct (is_numeric val); cbn [negb].
  2:{ unfold print_encoded. destruct (encodable (skip_warning label));
      split; first [reflexivity | discriminate]. }
  destruct (endswith label "_input"); cbn [negb]; [| apply calm_ret].
  apply calm_bind; [apply calm_div1000 | intros q].
  destruct (startswith label "temp"); [apply calm_ret |].
  destruct (startswith label "humidity"); apply calm_ret.
Qed.

Lemma calm_flatten_chip (fl : flat) (chip : json) : calm (flatten_chip fl chip).
Proof.
  unfold flatten_chip. apply calm_bind.
  - destruct chip; first [apply calm_ret | apply calm_raise].
  - intros fs. apply calm_for_each. apply calm_flatten_field.
Qed.

Lemma calm_flatten_sensors (d : json) : calm (flatten_sensors d).
Proof.
  unfold flatten_sensors. apply calm_bind; [split; [reflexivity | discriminate] |].
  intros _. apply calm_bind.
  - destruct d; first [apply calm_ret | apply calm_raise].
  - intros chips. apply calm_for_each. apply calm_flatten_chip.
Qed.

Lemma flatten_chips_malformed (chips : list json) :
  forallb is_mapping chips = false ->
  forall fl, exists e, result (for_each chips flatten_chip fl) = Raise e.
Proof.
  induction chips as [| chip t IH]; intros H fl; [discriminate |].
  cbn [for_each].
  destruct (calm_flatten_chip fl chip) as [_ Hx].
  destruct (flatten_chip fl chip) as [l [fl1 | e | c]] eqn:E.
  - cbn [forallb] in H. destruct (is_mapping chip) eqn:Hm.
    + destruct (IH H fl1) as (e & He).
      exists e. rewrite (bind_returns _ _ _ _ eq_refl). exact He.
    + destruct chip; try discriminate Hm; discriminate E.
  - now exists e.
  - now destruct (Hx c).
Qed.

(** On a value that is not a mapping of mappings the flattening raises. *)
Lemma flatten_sensors_malformed (d : json) :
  wf_doc d = false -> exists e, result (flatten_sensors d) = Raise e.
Proof.
  intros H. unfold flatten_sensors, call. rewrite emit_bind. cbn [result snd].
  destruct d as [| | | | | | chips];
    try (eexists; reflexivity).
  cbn [values]. rewrite bind_ret_l.
  apply flatten_chips_malformed.
  unfold wf_doc in H. rewrite <- H. clear H.
  induction chips as [| c t IH]; [reflexivity |].
  cbn [map forallb]. now rewrite IH.
Qed.

Lemma no_validate_app (l1 l2 : list event) :
  no_validate (l1 ++ l2) = no_validate l1 && no_validate l2.
Proof. apply forallb_app. Qed.

Lemma no_validate_In (l : list event) :
  no_validate l = true -> ~ In (Call F_validate) l.
Proof.
  unfold no_validate. rewrite forallb_forall. intros H Hin.
  now specialize (H _ Hin).
Qed.

Lemma no_later_stage_no_validate (l : list event) :
  forallb (fun ev => negb (later_stage ev)) l = true -> no_validate l = true.
Proof.
  unfold no_validate. rewrite !forallb_forall. intros H ev Hin.
  specialize (H ev Hin). now destruct ev as [| | []].
Qed.

Lemma no_later_stage_In (l : list event) :
  forallb (fun ev => negb (later_stage ev)) l = true ->
  ~ In (Call F_flatten_sensors) l /\ ~ In (Call F_validate) l.
Proof.
  rewrite forallb_forall. intros H.
  split; intros Hin; now specialize (H _ Hin).
Qed.

(** From the document on, [main] ends with status 0, 1 or 2. *)
Lemma main_from_status (a : args) (data : json) :
  exists c, result (main_from a data) = Exit c /\ (c = 0 \/ c = 1 \/ c = 2).
Proof.
  destruct (calm_flatten_sensors data) as [_ Hx].
  destruct (flatten_sensors data) as [lf [vals | e | c]] eqn:E.
  - rewrite (main_from_returns a data lf vals E).
    destruct (raw_json_output a) eqn:Hr.
    { rewrite (report_raw a vals Hr). cbn. eauto. }
    destruct (len (temp vals) + len (hum vals) <? expected_sensors a) eqn:Hm.
    { rewrite (report_missing a vals Hr Hm). cbn. eauto. }
    rewrite (report_validated a vals Hr Hm).
    destruct (all_issues (flat_items vals) (ranges_of a)); cbn; eauto.
  - rewrite (main_from_raises a data lf e E). cbn. eauto.
  - now destruct (Hx c).
Qed.

Lemma main_from_malformed (a : args) (data : json) :
  wf_doc data = false ->
  result (main_from a data) = Exit 1
  /\ no_validate (log (main_from a data)) = true.
Proof.
  intros H. destruct (flatten_sensors_malformed data H) as (e & He).
  destruct (calm_flatten_sensors data) as [Hl _].
  destruct (flatten_sensors data) as [lf o] eqn:E. cbn [result snd] in He. subst o.
  rewrite (main_from_raises a data lf e E). cbn [result log fst snd] in *.
  split; [reflexivity |]. now rewrite no_validate_app, Hl.
Qed.

Lemma get_sensors_json_no_validate (w : world) (host user : string)
    (password key : option string) (port : Z) :
  no_validate (log (get_sensors_json w host user password key port)) = true.
Proof.
  pose proof (fetch_no_later_stage w host user password key port) as Hl.
  pose proof (fetch_never_exits w host user password key port) as Hx.
  apply no_later_stage_no_validate in Hl.
  destruct (fetch w host user password key port) as [l [data | e | c]] eqn:E;
    cbn [log result fst snd] in *.
  - now rewrite (get_sensors_json_returns _ _ _ _ _ _ _ _ E).
  - destruct (is_bad_data e) eqn:Hb.
    + rewrite (get_sensors_json_bad_data _ _ _ _ _ _ _ _ E Hb).
      cbn [log fst]. now rewrite no_validate_app, Hl.
    + now rewrite (get_sensors_json_raises _ _ _ _ _ _ _ _ E Hb).
  - now destruct (Hx c).
Qed.

Lemma acquire_no_validate (w : world) (host user : string)
    (password key : option string) (port : Z) :
  no_validate (log (acquire w host user password key port)) = true.
Proof.
  unfold acquire.
  pose proof (get_sensors_json_no_validate w host user password key port) as Hg.
  destruct (get_sensors_json w host user password key port) as [l [data | e | c]];
    cbn [log fst bind] in *; try exact Hg.
  destruct (calm_flatten_sensors data) as [Hf _].
  destruct (flatten_sensors data) as [lf o]. cbn [log fst] in *.
  now rewrite no_validate_app, Hg, Hf.
Qed.

Lemma main_acquired (w : world) (a : args) l vals :
  acquire w (host a) (user a) (password a) (key a) (port a) = (l, Ret vals) ->
  forall lr c, report a vals = (lr, Exit c) ->
  main w a = ((l ++ lr)%list, Exit c).
Proof.
  intros H lr c Hr. rewrite main_eq_acquire.
  rewrite (try_except_bind_returns _ _ _ _ _ H), Hr. reflexivity.
Qed.

(** *** The lines of the acquisition *)

Lemma conn_ops_app (l1 l2 : list event) :
  conn_ops (l1 ++ l2) = (conn_ops l1 ++ conn_ops l2)%list.
Proof. apply flat_map_app. Qed.

Lemma stdout_lines_app (l1 l2 : list event) :
  stdout_lines (l1 ++ l2) = (stdout_lines l1 ++ stdout_lines l2)%list.
Proof. apply flat_map_app. Qed.

Lemma stderr_lines_app (l1 l2 : list event) :
  stderr_lines (l1 ++ l2) = (stderr_lines l1 ++ stderr_lines l2)%list.
Proof. apply flat_map_app. Qed.

Lemma calls_app (l1 l2 : list event) :
  calls (l1 ++ l2) = (calls l1 ++ calls l2)%list.
Proof. apply flat_map_app. Qed.

Lemma ssh_run_result (w : ssh_world) (host user : string)
    (password key : option string) (cmd : string) (port : Z) :
  result (ssh_run w host user password key cmd port)
  = match ssh_outcome w with
    | inl e => Raise e
    | inr out => Ret out
    end.
Proof. ssh_cases w; reflexivity. Qed.

Lemma ssh_run_quiet (w : ssh_world) (host user : string)
    (password key : option string) (cmd : string) (port : Z) :
  stdout_lines (log (ssh_run w host user password key cmd port)) = [].
Proof. ssh_cases w; reflexivity. Qed.

Lemma ssh_run_calls (w : ssh_world) (host user : string)
    (password key : option string) (cmd : string) (port : Z) :
  calls (log (ssh_run w host user password key cmd port)) = [F_ssh_run].
Proof. ssh_cases w; reflexivity. Qed.

(** The body of the try, by how ssh_run ends. *)
Lemma fetch_eq (w : world) (host user : string)
    (password key : option string) (port : Z) :
  fetch w host user password key port
  = match ssh_outcome (ssh w) with
    | inl e =>
        (log (ssh_run (ssh w) host user password key "sensors -j" port), Raise e)
    | inr raw =>
        ((log (ssh_run (ssh w) host user password key "sensors -j" port)
          ++ [Call F_json_loads])%list,
         match loads w raw with
         | inr v => Ret v
         | inl e => Raise e
         end)
    end.
Proof.
  unfold fetch.
  pose proof (ssh_run_result (ssh w) host user password key "sensors -j" port) as Hr.
  destruct (ssh_run (ssh w) host user password key "sensors -j" port) as [l o].
  cbn [log result fst snd] in *. subst o.
  destruct (ssh_outcome (ssh w)) as [e | raw]; [reflexivity |].
  cbn [bind]. unfold json_loads, call. rewrite emit_bind.
  destruct (loads w raw); reflexivity.
Qed.

(** What the handlers of get_sensors_json add to the try body. *)
Lemma get_sensors_json_eq (w : world) (host user : string)
    (password key : option string) (port : Z) :
  get_sensors_json w host user password key port
  = match fetch w host user password key port with
    | (l, Raise e) =>
        if is_bad_data e then ((l ++ [Print Stdout (bad_data_line e)])%list, Exit 3)
        else (l, Raise e)
    | m => m
    end.
Proof.
  destruct (fetch w host user password key port) as [l [v | e | c]] eqn:E.
  - now apply get_sensors_json_returns.
  - destruct (is_bad_data e) eqn:Hb.
    + now apply get_sensors_json_bad_data.
    + now apply get_sensors_json_raises.
  - now destruct (fetch_never_exits w host user password key port c); rewrite E.
Qed.

Lemma ssh_run_stderr (w : ssh_world) (host user : string)
    (password key : option string) (cmd : string) (port : Z) :
  stderr_lines (log (ssh_run w host user password key cmd port)) = ssh_diagnostics w.
Proof. ssh_cases w; reflexivity. Qed.

Lemma fetch_lines (w : world) (host user : string)
    (password key : option string) (port : Z) :
  stdout_lines (log (fetch w host user password key port)) = []
  /\ stderr_lines (log (fetch w host user password key port))
     = ssh_diagnostics (ssh w).
Proof.
  rewrite fetch_eq.
  pose proof (ssh_run_quiet (ssh w) host user password key "sensors -j" port) as Hq.
  pose proof (ssh_run_stderr (ssh w) host user password key "sensors -j" port) as Hs.
  destruct (ssh_outcome (ssh w)); cbn [log fst].
  - now split.
  - rewrite stdout_lines_app, stderr_lines_app, Hq, Hs. cbn. now rewrite app_nil_r.
Qed.





(** C2, as amended: the run terminates with exit status 3 exactly when
    the body of the try of get_sensors_json (ssh_run, then json.loads)
    raises a TypeError or a ValueError, as json.loads does with a
    JSONDecodeError on a text that is not well-formed JSON; no later
    stage runs then (no flattening, no validation).  When the text
    deserializes to a value that is not a mapping of mappings, the run
    terminates with exit status 1, not 3, and validation does not run. *)
Theorem main_bad_data_status (w : world) (a : args) :
  (exit_code (main w a) = Some 3
   <-> exists e,
         result (fetch w (host a) (user a) (password a) (key a) (port a)) = Raise e
         /\ is_bad_data e = true)
  /\ (exit_code (main w a) = Some 3 ->
      ~ In (Call F_flatten_sensors) (log (main w a))
      /\ ~ In (Call F_validate) (log (main w a)))
  /\ (forall data,
        result (fetch w (host a) (user a) (password a) (key a) (port a)) = Ret data ->
        wf_doc data = false ->
        exit_code (main w a) = Some 1 /\ ~ In (Call F_validate) (log (main w a))).
Proof.
  pose proof (fetch_no_later_stage w (host a) (user a) (password a) (key a) (port a)) as Hl.
  pose proof (fetch_never_exits w (host a) (user a) (password a) (key a) (port a)) as Hx.
  destruct (fetch w (host a) (user a) (password a) (key a) (port a))
    as [l [data | e | c]] eqn:E; cbn [log result fst snd] in *.
  - rewrite (main_fetched w a l data E). unfold exit_code. cbn [log result fst snd].
    destruct (main_from_status a data) as (c & Hc & Hc3).
    rewrite Hc. split; [| split].
    + split.
      * intros H. injection H as ->. lia.
      * intros (e & He & _). discriminate He.
    + intros H. injection H as ->. lia.
    + intros data' H Hw. injection H as <-.
      destruct (main_from_malformed a data Hw) as [Hr Hv].
      rewrite Hc in Hr. injection Hr as ->. split; [reflexivity |].
      apply no_validate_In. rewrite no_validate_app, Hv.
      now rewrite (no_later_stage_no_validate l Hl).
  - destruct (is_bad_data e) eqn:Hb.
    + rewrite (main_bad_data w a l e E Hb). unfold exit_code. cbn [log result fst snd].
      split; [| split].
      * split; [intros _; now exists e | reflexivity].
      * intros _. apply no_later_stage_In. now rewrite forallb_app, Hl.
      * intros data H. discriminate H.
    + rewrite (main_fetch_failed w a l e E Hb). unfold exit_code.
      cbn [log result fst snd]. split; [| split].
      * split; [intros H; discriminate H |].
        intros (e' & He & Hb'). injection He as <-. congruence.
      * intros H. discriminate H.
      * intros data H. discriminate H.
  - now destruct (Hx c).
Qed.

(** C5: in the non-raw path of main, when the readings are acquired and
    len(temp) + len(hum) < expected_sensors, the run prints the summary
    and the line on the missing sensors and stops with exit status 1;
    validate is not entered, so no issue of a range is reported,
    whatever the ranges and the readings are. *)
Theorem main_missing_sensors (w : world) (a : args) (l : list event) (vals : flat) :
  raw_json_output a = false ->
  acquire w (host a) (user a) (password a) (key a) (port a) = (l, Ret vals) ->
  len (temp vals) + len (hum vals) < expected_sensors a ->
  main w a
  = ((l ++ summary vals
      ++ [Print Stdout (missing_line (expected_sensors a)
                          (len (temp vals) + len (hum vals)))])%list,
     Exit 1)
  /\ ~ In (Call F_validate) (log (main w a)).
Proof.
  intros Hr Ha Hm. apply Z.ltb_lt in Hm.
  pose proof (main_acquired w a l vals Ha _ _ (report_missing a vals Hr Hm)) as E.
  split; [exact E |].
  rewrite E. cbn [log fst]. apply no_validate_In.
  pose proof (acquire_no_validate w (host a) (user a) (password a) (key a) (port a)) as Hv.
  rewrite Ha in Hv. cbn [log fst] in Hv.
  now rewrite no_validate_app, Hv.
Qed.


(** ** The runs of the test suite and of the docstrings *)

Import Scenario Input.

(** test_flatten_sensors *)
Example flatten_sample :
  flatten_sensors SAMPLE_JSON = ([Call F_flatten_sensors], Ret sample_readings).
Proof. vm_compute. reflexivity. Qed.

(** test_validate_out_of_range *)
Example validate_out_of_range :
  result (validate [("temp", [dec true 30 0]); ("hum", [dec false 150 0])]
                   default_ranges)
  = Ret ["temp1: -30.0 out of -20..80"; "hum1: 150.0 out of 0..100"].
Proof. vm_compute. reflexivity. Qed.

(** test_main_success: scenario A *)
Example main_success :
  exit_code (main (world_of sample_text) default_args) = Some 0.
Proof. vm_compute. reflexivity. Qed.

(** test_main_out_of_range: scenario C *)
Example main_out_of_range :
  exit_code (main (world_of bad_text) (with_expected 2 default_args)) = Some 2.
Proof. vm_compute. reflexivity. Qed.

(** test_main_invalid_json: scenario D *)
Example main_invalid_json :
  exit_code (main (world_of "{invalid}") default_args) = Some 3.
Proof. vm_compute. reflexivity. Qed.

(** test_main_ssh_failure *)
Example main_ssh_failure :
  exit_code (main (mk_world ssh_refused loads_table) default_args) = Some 1.
Proof. vm_compute. reflexivity. Qed.

(** test_main_invalid_ranges *)
Example main_invalid_ranges :
  exit_code (main (world_of sample_text) (with_temp_range inverted_arg default_args))
  = Some 2.
Proof. vm_compute. reflexivity. Qed.

(** The numbers: the largest power of ten that the division takes, the
    rounding of halves on the exact value, and the text of floats. *)
Example int_true_div_range :
  int_true_div (10 ^ 311) 1000 = Some (dec false 1 308)
  /\ int_true_div (10 ^ 312) 1000 = None
  /\ int_true_div 1 1000 = Some (dec false 1 (-3)).
Proof. repeat split; vm_compute; reflexivity. Qed.

Example round1_values :
  map (fun x => repr_float (round1 x))
      [dec false 25 (-2); dec false 75 (-2); dec false 35 (-2);
       dec true 4 (-2); dec false 12345 (-3); dec false 1 300; S754_nan]
  = ["0.2"; "0.8"; "0.3"; "-0.0"; "12.3"; "1e+300"; "nan"].
Proof. vm_compute. reflexivity. Qed.

Example repr_float_values :
  map repr_float
      [dec false 1 (-1); dec false 1 16; dec false 1 (-5); dec false 1 15;
       dec false 1 (-4); dec false 5 (-324); dec false 17976931348623157 292;
       float_of_ratio false 1 3]
  = ["0.1"; "1e+16"; "1e-05"; "1000000000000000.0"; "0.0001"; "5e-324";
     "1.7976931348623157e+308"; "0.3333333333333333"].
Proof. vm_compute. reflexivity. Qed.

(** ** The claims at concrete inputs *)

(** C1 as stated fails on an int too large for the division, and on a
    non-numeric field whose name stdout cannot encode: the documents are
    well-formed and flatten_sensors raises OverflowError, or
    UnicodeEncodeError, instead of returning the two sequences. *)
Lemma flatten_sensors_huge_int :
  wf_doc huge_doc = true
  /\ flatten_sensors huge_doc = ([Call F_flatten_sensors], Raise overflow_error)
  /\ wf_doc surrogate_doc = true
  /\ flatten_sensors surrogate_doc
     = ([Call F_flatten_sensors],
        Raise (encode_error (skip_warning lone_surrogate))).
Proof. repeat split; vm_compute; reflexivity. Qed.

Lemma flatten_sensors_readings_witness :
  wf_doc mixed_doc = true
  /\ no_overflow mixed_doc = true
  /\ names_encodable mixed_doc = true
  /\ exists fl,
       flatten_sensors mixed_doc
       = ((Call F_flatten_sensors :: warnings_of (fields_of mixed_doc))%list, Ret fl)
       /\ map Some (temp fl) = temp_of (fields_of mixed_doc)
       /\ map Some (hum fl) = hum_of (fields_of mixed_doc).
Proof.
  split; [vm_compute; reflexivity |].
  split; [vm_compute; reflexivity |].
  split; [vm_compute; reflexivity |].
  apply (flatten_sensors_readings mixed_doc); vm_compute; reflexivity.
Defined.



Lemma flatten_sensors_bool_witness :
  flatten_sensors bool_doc = ([Call F_flatten_sensors], Ret (mk_flat [zero] [])).
Proof.
  destruct (flatten_sensors_bool [] "chip" [] "temp1_input" true [] [])
    as (_ & _ & E).
  - vm_compute. reflexivity.
  - left. vm_compute. reflexivity.
  - unfold bool_doc. cbn [app] in E. rewrite E. vm_compute. reflexivity.
Defined.



(** C3 as stated fails on a reading that is NaN: it is neither below the
    minimum nor above the maximum, and validate reports it.  It fails
    too on an int bound of more digits than the conversion to text
    allows: validate raises ValueError while formatting the issue. *)
Lemma validate_nan_reported :
  validate nan_vals default_ranges
  = ([Call F_validate], Ret ["temp1: nan out of -20..80"])
  /\ outside (PyInt (-20)) S754_nan (PyInt 80) = false
  /\ (issues_as_specified "temp" (PyInt (-20), PyInt 80) [S754_nan]
      ++ issues_as_specified "hum" (PyInt 0, PyInt 100) [])%list = []
  /\ covers huge_ranges one_reading = true
  /\ validate one_reading huge_ranges = ([Call F_validate], Raise str_limit_error).
Proof. repeat split; vm_compute; reflexivity. Qed.

Lemma validate_issues_witness :
  covers doc_ranges doc_vals = true
  /\ printable_ranges doc_ranges doc_vals = true
  /\ validate doc_vals doc_ranges
     = ([Call F_validate],
        Ret ["temp2: -5.0 out of 0..50"; "temp3: 55.0 out of 0..50";
             "hum2: 120.0 out of 0..100"]).
Proof.
  split; [vm_compute; reflexivity |].
  split; [vm_compute; reflexivity |].
  destruct (validate_issues doc_vals doc_ranges) as [E _].
  - vm_compute. reflexivity.
  - vm_compute. reflexivity.
  - rewrite E. vm_compute. reflexivity.
Defined.

(** C4 as stated fails on an inverted range with an int bound of more
    digits than the conversion to text allows, (10**4300, 0): the
    minimum is above the maximum, the reading 25.0 is outside, and
    validate raises ValueError while formatting its issue instead of
    returning it. *)
Lemma validate_inverted_huge_bound :
  lookup huge_ranges "temp" = Some (PyInt (10 ^ 4300), PyInt 0)
  /\ num_lt (PyInt 0) (PyInt (10 ^ 4300)) = true
  /\ In ("temp", [dec false 25 0]) one_reading
  /\ validate one_reading huge_ranges = ([Call F_validate], Raise str_limit_error)
  /\ exn_cls str_limit_error = ValueError.
Proof.
  split; [reflexivity |]. split; [vm_compute; reflexivity |].
  split; [left; reflexivity |]. split; vm_compute; reflexivity.
Qed.

Lemma validate_inverted_range_witness :
  covers inverted_ranges (flat_items sample_readings) = true
  /\ printable_ranges inverted_ranges (flat_items sample_readings) = true
  /\ num_lt (snd inverted) (fst inverted) = true
  /\ In "temp1: 25.0 out of 80.0..-20.0"
        (all_issues (flat_items sample_readings) inverted_ranges)
  /\ In "temp2: 26.0 out of 80.0..-20.0"
        (all_issues (flat_items sample_readings) inverted_ranges).
Proof.
  split; [vm_compute; reflexivity |].
  split; [vm_compute; reflexivity |].
  split; [vm_compute; reflexivity |].
  destruct (validate_inverted_range (flat_items sample_readings) inverted_ranges
              "temp" (temp sample_readings) (fst inverted) (snd inverted))
    as (_ & _ & H).
  - vm_compute. reflexivity.
  - vm_compute. reflexivity.
  - left. reflexivity.
  - vm_compute. reflexivity.
  - vm_compute. reflexivity.
  - split.
    + assert (T : issue_text "temp" 1 (dec false 25 0) (fst inverted) (snd inverted)
                  = "temp1: 25.0 out of 80.0..-20.0") by (vm_compute; reflexivity).
      rewrite <- T. apply H. left. reflexivity.
    + assert (T : issue_text "temp" 2 (dec false 26 0) (fst inverted) (snd inverted)
                  = "temp2: 26.0 out of 80.0..-20.0") by (vm_compute; reflexivity).
      rewrite <- T. apply H. right. left. reflexivity.
Defined.

Lemma ssh_run_closes_witness :
  new_client ssh_refused = None
  /\ (exists pre post,
         log (ssh_run ssh_refused "1.2.3.4" "user" (Some "pass") None "sensors -j" 22)
         = (pre ++ Conn Close :: post)%list
         /\ ~ In (Conn Close) pre
         /\ ~ In (Conn Close) post
         /\ forallb is_stderr post = true)
  /\ result (ssh_run ssh_noisy "1.2.3.4" "user" None (Some "/id") "sensors -j" 22)
     = Ret "{}".
Proof.
  split; [reflexivity |]. split.
  - apply (ssh_run_closes ssh_refused "1.2.3.4" "user" (Some "pass") None
             "sensors -j" 22). reflexivity.
  - apply (ssh_run_closes ssh_noisy "1.2.3.4" "user" None (Some "/id")
             "sensors -j" 22 eq_refl) with (err := "sensors: warning");
      reflexivity.
Defined.

(** C2 as stated fails on a text that deserializes to a list: ssh_run
    returns the text, json.loads returns the list, which is no mapping,
    and the run terminates with exit status 1, not 3. *)
Lemma main_list_document_exits_1 :
  result (ssh_run (ssh (world_of "[]")) "1.2.3.4" "user" (Some "pass") None
                  "sensors -j" 22) = Ret "[]"
  /\ loads (world_of "[]") "[]" = inr (JArr [])
  /\ wf_doc (JArr []) = false
  /\ exit_code (main (world_of "[]") default_args) = Some 1
  /\ exit_code (main (world_of "[]") default_args) <> Some 3.
Proof. repeat split; try (vm_compute; reflexivity). vm_compute. discriminate. Qed.

(** The readings of test_main_out_of_range are both out of range and
    fewer than the three expected: the run stops on the count. *)
Lemma main_missing_sensors_witness :
  main (world_of bad_text) default_args
  = ((log (acquire (world_of bad_text) "1.2.3.4" "user" (Some "pass") None 22)
      ++ summary bad_readings
      ++ [Print Stdout "Missing sensors: expected 3, found 2"])%list,
     Exit 1)
  /\ ~ In (Call F_validate) (log (main (world_of bad_text) default_args))
  /\ all_issues (flat_items bad_readings) default_ranges
     = ["temp1: -30.0 out of -20..80"; "hum1: 150.0 out of 0..100"].
Proof.
  destruct (main_missing_sensors (world_of bad_text) default_args
              (log (acquire (world_of bad_text) "1.2.3.4" "user" (Some "pass")
                            None 22))
              bad_readings)
    as [E H].
  - reflexivity.
  - vm_compute. reflexivity.
  - vm_compute. reflexivity.
  - split; [| split; [exact H | vm_compute; reflexivity]].
    rewrite E. reflexivity.
Defined.



(** * More of the program *)

(** ** ssh_run, besides the close *)

(** X1: when the client object cannot be created, ssh_run touches no
    connection: it prints the failure on stderr, does not call close,
    and raises the exception of the constructor. *)
Theorem ssh_run_without_client (w : ssh_world) (host user : string)
    (password key : option string) (cmd : string) (port : Z) (e : exn) :
  new_client w = Some e ->
  ssh_run w host user password key cmd port
  = ([Call F_ssh_run; Print Stderr ("SSH operation failed: " ++ exn_msg e)],
     Raise e).
Proof.
  destruct w as [nc sp co ex se so cl]. cbn [new_client]. intros ->. reflexivity.
Qed.

Lemma ssh_run_without_client_witness :
  ssh_run (mk_ssh_world (Some (mk_exn OSError "no memory")) None None None
                        (inr EmptyString) (inr "{}") None)
          "1.2.3.4" "user" (Some "pass") None "sensors -j" 22
  = ([Call F_ssh_run; Print Stderr "SSH operation failed: no memory"],
     Raise (mk_exn OSError "no memory")).
Proof.
  exact (ssh_run_without_client
           (mk_ssh_world (Some (mk_exn OSError "no memory")) None None None
                         (inr EmptyString) (inr "{}") None)
           "1.2.3.4" "user" (Some "pass") None "sensors -j" 22
           (mk_exn OSError "no memory") eq_refl).
Defined.

(** X2: on a created client ssh_run runs the operations in a fixed
    order (host key policy, connect, exec_command, read of stderr, read
    of stdout), stops at the first that fails, and then closes: an
    operation is started only if all those before it succeeded, connect
    uses the key file exactly when key is a non-empty string, and the
    command run is the one given. *)
Theorem ssh_run_protocol (w : ssh_world) (host user : string)
    (password key : option string) (cmd : string) (port : Z) :
  new_client w = None ->
  conn_ops (log (ssh_run w host user password key cmd port))
  = (firstn (steps_started w) (ssh_script key cmd) ++ [Close])%list.
Proof.
  ssh_cases w; cbn [new_client]; intros H; try discriminate H; reflexivity.
Qed.

Lemma ssh_run_protocol_witness :
  conn_ops (log (ssh_run ssh_refused "1.2.3.4" "user" (Some "pass") (Some EmptyString)
                         "sensors -j" 22))
  = [SetPolicy; Connect false; Close].
Proof.
  apply (ssh_run_protocol ssh_refused "1.2.3.4" "user" (Some "pass")
           (Some EmptyString) "sensors -j" 22).
  reflexivity.
Defined.

(** X3: ssh_run returns the text of stdout exactly when every operation
    before close succeeds, and otherwise raises the exception of the
    first operation that failed, unchanged; it never exits. *)
Theorem ssh_run_outcome (w : ssh_world) (host user : string)
    (password key : option string) (cmd : string) (port : Z) :
  result (ssh_run w host user password key cmd port)
  = match ssh_outcome w with
    | inl e => Raise e
    | inr out => Ret out
    end.
Proof. ssh_cases w; reflexivity. Qed.

(** X4: ssh_run writes nothing to stdout, and its lines on stderr are,
    in order: the text the command wrote to stderr if it was read and is
    not empty, the failure if an operation failed, and the warning if
    the client was created and close failed.  A text on the remote
    stderr alone does not make ssh_run fail. *)
Theorem ssh_run_diagnostics (w : ssh_world) (host user : string)
    (password key : option string) (cmd : string) (port : Z) :
  stdout_lines (log (ssh_run w host user password key cmd port)) = []
  /\ stderr_lines (log (ssh_run w host user password key cmd port))
     = ssh_diagnostics w.
Proof. ssh_cases w; split; reflexivity. Qed.

(** ** get_sensors_json, besides the exit status *)

(** X5: get_sensors_json returns what json.loads returns on the text of
    stdout; a TypeError or a ValueError (JSONDecodeError and
    UnicodeDecodeError included), whether ssh_run or json.loads raised
    it, becomes the exit status 3; every other exception propagates
    unchanged.  So it never raises a TypeError or a ValueError, and
    exits with no other status than 3. *)
Theorem get_sensors_json_outcome (w : world) (host user : string)
    (password key : option string) (port : Z) :
  result (get_sensors_json w host user password key port)
  = match ssh_outcome (ssh w) with
    | inl e => if is_bad_data e then Exit 3 else Raise e
    | inr raw =>
        match loads w raw with
        | inr v => Ret v
        | inl e => if is_bad_data e then Exit 3 else Raise e
        end
    end.
Proof.
  rewrite get_sensors_json_eq, fetch_eq.
  destruct (ssh_outcome (ssh w)) as [e | raw].
  - now destruct (is_bad_data e).
  - destruct (loads w raw) as [e | v]; [| reflexivity].
    now destruct (is_bad_data e).
Qed.

(** X6: get_sensors_json runs one command, "sensors -j": its operations
    on the connection are those of ssh_run with that command.  It enters
    json.loads exactly when ssh_run returned, and after everything
    ssh_run did, so the connection is closed by then; when ssh_run
    raises, json.loads is not entered. *)
Theorem get_sensors_json_order (w : world) (host user : string)
    (password key : option string) (port : Z) :
  exists l,
    log (get_sensors_json w host user password key port)
    = (log (ssh_run (ssh w) host user password key "sensors -j" port) ++ l)%list
    /\ conn_ops l = []
    /\ calls l = match ssh_outcome (ssh w) with
                 | inr _ => [F_json_loads]
                 | inl _ => []
                 end.
Proof.
  rewrite get_sensors_json_eq, fetch_eq.
  destruct (ssh_outcome (ssh w)) as [e | raw].
  - destruct (is_bad_data e); cbn [log fst].
    + now eexists.
    + exists []. now rewrite app_nil_r.
  - destruct (loads w raw) as [e | v]; cbn [log fst].
    + destruct (is_bad_data e); cbn [log fst].
      * rewrite <- app_assoc. now eexists.
      * now eexists.
    + now eexists.
Qed.

(** X7: the line that get_sensors_json prints before it exits goes to
    stdout and is chosen by the first clause that matches: a TypeError
    gets "Error - non-deserializable data received", a JSONDecodeError
    gets "Error parsing sensors JSON" although it is a ValueError too,
    and any other ValueError gets "Unexpected error"; otherwise
    get_sensors_json prints nothing to stdout. *)
Theorem get_sensors_json_message (w : world) (host user : string)
    (password key : option string) (port : Z) :
  stdout_lines (log (get_sensors_json w host user password key port))
  = match result (fetch w host user password key port) with
    | Raise e =>
        match exn_cls e with
        | TypeError => ["Error - non-deserializable data received: " ++ exn_msg e]
        | JSONDecodeError => ["Error parsing sensors JSON: " ++ exn_msg e]
        | ValueError | UnicodeDecodeError | UnicodeEncodeError =>
            ["Unexpected error: " ++ exn_msg e]
        | _ => []
        end
    | _ => []
    end.
Proof.
  rewrite get_sensors_json_eq, fetch_eq.
  pose proof (ssh_run_quiet (ssh w) host user password key "sensors -j" port) as Hq.
  destruct (ssh_outcome (ssh w)) as [e | raw]; cbn [result snd].
  - unfold is_bad_data, bad_data_line, is_TypeError, is_ValueError, is_JSONDecodeError.
    destruct (exn_cls e); cbn [orb log fst]; rewrite ?stdout_lines_app, Hq;
      reflexivity.
  - destruct (loads w raw) as [e | v]; cbn [log fst].
    + unfold is_bad_data, bad_data_line, is_TypeError, is_ValueError,
        is_JSONDecodeError.
      destruct (exn_cls e); cbn [orb log fst]; rewrite ?stdout_lines_app, Hq;
        reflexivity.
    + now rewrite stdout_lines_app, Hq.
Qed.

(** ** flatten_sensors: wrong shapes, composition, counts *)

(** X8: on a value that is not a mapping (a list, a string, a number,
    null) flatten_sensors prints nothing and raises the AttributeError
    of data.values(), which names the type of the value. *)
Theorem flatten_sensors_not_mapping (d : json) :
  is_mapping d = false ->
  flatten_sensors d = ([Call F_flatten_sensors], Raise (attribute_error d "values")).
Proof. destruct d; intros H; try discriminate H; reflexivity. Qed.

Lemma flatten_sensors_not_mapping_witness :
  flatten_sensors (JArr [JInt 25000])
  = ([Call F_flatten_sensors],
     Raise (mk_exn AttributeError "'list' object has no attribute 'values'")).
Proof. exact (flatten_sensors_not_mapping (JArr [JInt 25000]) eq_refl). Defined.

(** X9: when a chip holds a value that is not a mapping, the chips
    before it are flattened (they hold no int too large for the
    division and no non-numeric field under a name that stdout cannot
    encode), with their warnings printed, and then flatten_sensors
    raises the AttributeError of chip.items(); the readings collected so
    far are lost and the chips after it are not looked at. *)
Theorem flatten_sensors_bad_chip (cs1 : list (string * json)) (c : string)
    (chip : json) (cs2 : list (string * json)) :
  wf_doc (JObj cs1) = true ->
  no_overflow (JObj cs1) = true ->
  names_encodable (JObj cs1) = true ->
  is_mapping chip = false ->
  flatten_sensors (JObj (cs1 ++ (c, chip) :: cs2))
  = ((Call F_flatten_sensors :: warnings_of (fields_of (JObj cs1)))%list,
     Raise (attribute_error chip "items")).
Proof.
  intros Hw Hc Hp Hm.
  destruct (flatten_chips_ok cs1 Hw Hc Hp (mk_flat [] [])) as (fl & E & _).
  unfold flatten_sensors, call. rewrite emit_bind.
  cbn [values]. rewrite bind_ret_l, map_app, for_each_app.
  rewrite (bind_returns _ _ _ _ E).
  change (map snd ((c, chip) :: cs2)) with (chip :: map snd cs2).
  cbn [for_each]. unfold flatten_chip at 1.
  destruct chip; try discriminate Hm; cbn; now rewrite app_nil_r.
Qed.

Lemma flatten_sensors_bad_chip_witness :
  flatten_sensors
    (JObj [("chip0", JObj [("Adapter", JStr "ISA adapter"); ("temp1_input", JInt 25000)]);
           ("version", JStr "3.6.0");
           ("chip1", JObj [("temp1_input", JInt 26000)])])
  = ([Call F_flatten_sensors; Print Stdout (skip_warning "Adapter")],
     Raise (mk_exn AttributeError "'str' object has no attribute 'items'")).
Proof.
  apply (flatten_sensors_bad_chip
           [("chip0", JObj [("Adapter", JStr "ISA adapter"); ("temp1_input", JInt 25000)])]
           "version" (JStr "3.6.0")
           [("chip1", JObj [("temp1_input", JInt 26000)])]);
    vm_compute; reflexivity.
Defined.

Lemma map_Some_inj {A} (l1 l2 : list A) : map Some l1 = map Some l2 -> l1 = l2.
Proof.
  revert l2. induction l1 as [| x t IH]; intros [| y u] H; try discriminate H.
  - reflexivity.
  - cbn [map] in H. injection H as -> H. now rewrite (IH _ H).
Qed.

Lemma fields_of_app (cs1 cs2 : list (string * json)) :
  fields_of (JObj (cs1 ++ cs2))
  = (fields_of (JObj cs1) ++ fields_of (JObj cs2))%list.
Proof. cbn [fields_of]. apply flat_map_app. Qed.

(** X10: flattening follows the order of the chips: for a well-formed
    document without overflow and without a warning that stdout cannot
    encode, whose chips are those of one document followed by those of
    another, the temp and hum sequences and the warnings are those of
    the first followed by those of the second. *)
Theorem flatten_sensors_app (cs1 cs2 : list (string * json)) :
  wf_doc (JObj (cs1 ++ cs2)) = true ->
  no_overflow (JObj (cs1 ++ cs2)) = true ->
  names_encodable (JObj (cs1 ++ cs2)) = true ->
  exists l1 f1 l2 f2,
    flatten_sensors (JObj cs1) = ((Call F_flatten_sensors :: l1)%list, Ret f1)
    /\ flatten_sensors (JObj cs2) = ((Call F_flatten_sensors :: l2)%list, Ret f2)
    /\ flatten_sensors (JObj (cs1 ++ cs2))
       = ((Call F_flatten_sensors :: l1 ++ l2)%list,
          Ret (mk_flat (temp f1 ++ temp f2) (hum f1 ++ hum f2))).
Proof.
  intros Hw Hc Hp.
  pose proof Hw as Hw'. pose proof Hc as Hc'. pose proof Hp as Hp'.
  unfold wf_doc in Hw'. rewrite forallb_app in Hw'.
  apply andb_true_iff in Hw' as [Hw1 Hw2].
  unfold no_overflow in Hc'. rewrite fields_of_app, forallb_app in Hc'.
  apply andb_true_iff in Hc' as [Hc1 Hc2].
  unfold names_encodable in Hp'. rewrite fields_of_app, forallb_app in Hp'.
  apply andb_true_iff in Hp' as [Hp1 Hp2].
  destruct (flatten_sensors_returns (JObj cs1) Hw1 Hc1 Hp1) as (f1 & E1 & T1 & H1).
  destruct (flatten_sensors_returns (JObj cs2) Hw2 Hc2 Hp2) as (f2 & E2 & T2 & H2).
  destruct (flatten_sensors_returns (JObj (cs1 ++ cs2)) Hw Hc Hp) as (f & E & T & H).
  exists (warnings_of (fields_of (JObj cs1))), f1,
         (warnings_of (fields_of (JObj cs2))), f2.
  split; [exact E1 | split; [exact E2 |]].
  rewrite E, fields_of_app, warnings_of_app. do 2 f_equal.
  rewrite fields_of_app, temp_of_app, <- T1, <- T2, <- map_app in T.
  rewrite fields_of_app, hum_of_app, <- H1, <- H2, <- map_app in H.
  apply map_Some_inj in T. apply map_Some_inj in H.
  destruct f as [t h]. cbn [temp hum] in T, H. now subst.
Qed.

Lemma flatten_sensors_app_witness :
  result (flatten_sensors
            (JObj [("coretemp-isa-0000",
                    JObj [("temp1_input", JInt 25000);
                          ("temp2_input", JInt 26000);
                          ("humidity1_input", JInt 45000)]);
                   ("chip0",
                    JObj [("temp1_input", JInt (-30000));
                          ("humidity1_input", JInt 150000)])]))
  = Ret (mk_flat (temp sample_readings ++ temp bad_readings)
                 (hum sample_readings ++ hum bad_readings)).
Proof.
  destruct (flatten_sensors_app
              [("coretemp-isa-0000",
                JObj [("temp1_input", JInt 25000);
                      ("temp2_input", JInt 26000);
                      ("humidity1_input", JInt 45000)])]
              [("chip0",
                JObj [("temp1_input", JInt (-30000));
                      ("humidity1_input", JInt 150000)])])
    as (l1 & f1 & l2 & f2 & E1 & E2 & E).
  - vm_compute. reflexivity.
  - vm_compute. reflexivity.
  - vm_compute. reflexivity.
  - cbn [app] in E. rewrite E. cbn [result snd].
    assert (F1 : f1 = sample_readings).
    { assert (R : result (flatten_sensors SAMPLE_JSON) = Ret sample_readings)
        by (vm_compute; reflexivity).
      unfold SAMPLE_JSON in R. rewrite E1 in R. now injection R. }
    assert (F2 : f2 = bad_readings).
    { assert (R : result (flatten_sensors BAD_JSON) = Ret bad_readings)
        by (vm_compute; reflexivity).
      unfold BAD_JSON in R. rewrite E2 in R. now injection R. }
    now subst.
Defined.

Lemma int_free_convertible (fs : list (string * json)) :
  forallb (fun f => negb (is_int (snd f))) fs = true ->
  forallb convertible fs = true.
Proof.
  induction fs as [| [label v] t IH]; intros H; [reflexivity |].
  cbn [forallb snd] in H. apply andb_true_iff in H as [Hv Ht].
  cbn [forallb]. rewrite (IH Ht), andb_true_r.
  unfold convertible, is_input. cbn [fst snd].
  destruct v as [| b | z | f | s | l | l]; try reflexivity; try discriminate Hv.
  - destruct (endswith label "_input"); [| reflexivity].
    destruct (div1000_bool b) as (q & Hq & _).
    unfold reading. now rewrite Hq.
  - now destruct (endswith label "_input").
Qed.

(** X11: a well-formed document that holds no int (floats, booleans and
    non-numeric values only, NaN and the infinities included), and no
    non-numeric field under a name that stdout cannot encode, is always
    flattened: flatten_sensors returns, whatever the floats are. *)
Theorem flatten_sensors_int_free (d : json) :
  wf_doc d = true ->
  int_free d = true ->
  names_encodable d = true ->
  exists fl,
    flatten_sensors d
    = ((Call F_flatten_sensors :: warnings_of (fields_of d))%list, Ret fl)
    /\ map Some (temp fl) = temp_of (fields_of d)
    /\ map Some (hum fl) = hum_of (fields_of d).
Proof.
  intros Hw Hi Hp. apply flatten_sensors_returns; [exact Hw | | exact Hp].
  now apply int_free_convertible.
Qed.

Lemma flatten_sensors_int_free_witness :
  exists fl,
    result (flatten_sensors
              (JObj [("emulator",
                      JObj [("temp1_input", JFloat (dec true 1234567 (-2)));
                            ("temp2_input", JFloat S754_nan);
                            ("humidity1_input", JFloat (S754_infinity false));
                            ("label", JStr "x")])]))
    = Ret fl
    /\ map repr_float (temp fl) = ["-12.3"; "nan"]
    /\ map repr_float (hum fl) = ["inf"].
Proof.
  destruct (flatten_sensors_int_free
              (JObj [("emulator",
                      JObj [("temp1_input", JFloat (dec true 1234567 (-2)));
                            ("temp2_input", JFloat S754_nan);
                            ("humidity1_input", JFloat (S754_infinity false));
                            ("label", JStr "x")])]))
    as (fl & E & T & H).
  - vm_compute. reflexivity.
  - vm_compute. reflexivity.
  - vm_compute. reflexivity.
  - exists fl. rewrite E. split; [reflexivity |].
    assert (Tv : temp_of (fields_of
                  (JObj [("emulator",
                      JObj [("temp1_input", JFloat (dec true 1234567 (-2)));
                            ("temp2_input", JFloat S754_nan);
                            ("humidity1_input", JFloat (S754_infinity false));
                            ("label", JStr "x")])]))
                 = map Some [dec true 123 (-1); S754_nan])
      by (vm_compute; reflexivity).
    assert (Hv : hum_of (fields_of
                  (JObj [("emulator",
                      JObj [("temp1_input", JFloat (dec true 1234567 (-2)));
                            ("temp2_input", JFloat S754_nan);
                            ("humidity1_input", JFloat (S754_infinity false));
                            ("label", JStr "x")])]))
                 = map Some [S754_infinity false])
      by (vm_compute; reflexivity).
    rewrite Tv in T. rewrite Hv in H.
    apply map_Some_inj in T. apply map_Some_inj in H. rewrite T, H.
    split; vm_compute; reflexivity.
Defined.

Lemma reading_fields_count (fs : list (string * json)) :
  (List.length (filter is_temp fs) + List.length (filter is_hum fs))%nat
  = List.length (filter is_reading fs).
Proof.
  induction fs as [| [label v] t IH]; [reflexivity |].
  cbn [filter].
  change (is_reading (label, v)) with (is_temp (label, v) || is_hum (label, v)).
  destruct (is_temp (label, v)) eqn:Et, (is_hum (label, v)) eqn:Eh;
    cbn [orb List.length]; try lia.
  unfold is_temp in Et. unfold is_hum in Eh. cbn [fst] in Et, Eh.
  apply andb_true_iff in Et as [_ Et]. apply andb_true_iff in Eh as [_ Eh].
  now rewrite (temp_not_humidity _ Et) in Eh.
Qed.

(** X12: the number of readings of a well-formed document without
    overflow and without a warning that stdout cannot encode,
    len(temp) + len(hum), which main compares with expected_sensors, is
    the number of its fields that hold a number under a name ending
    with '_input' and starting with 'temp' or 'humidity'; it never
    exceeds the number of fields. *)
Theorem flatten_sensors_count (d : json) :
  wf_doc d = true ->
  no_overflow d = true ->
  names_encodable d = true ->
  exists fl,
    result (flatten_sensors d) = Ret fl
    /\ (List.length (temp fl) + List.length (hum fl))%nat
       = List.length (filter is_reading (fields_of d))
    /\ (List.length (temp fl) + List.length (hum fl) <= List.length (fields_of d))%nat.
Proof.
  intros Hw Hc Hp.
  destruct (flatten_sensors_returns d Hw Hc Hp) as (fl & E & T & H).
  exists fl. rewrite E. split; [reflexivity |].
  apply (f_equal (@List.length _)) in T. apply (f_equal (@List.length _)) in H.
  unfold temp_of, hum_of in T, H. rewrite !length_map in T, H.
  rewrite T, H, reading_fields_count.
  split; [reflexivity | apply filter_length_le].
Qed.

Lemma flatten_sensors_count_witness :
  exists fl,
    result (flatten_sensors mixed_doc) = Ret fl
    /\ (List.length (temp fl) + List.length (hum fl))%nat = 4%nat.
Proof.
  destruct (flatten_sensors_count mixed_doc) as (fl & E & N & _).
  - vm_compute. reflexivity.
  - vm_compute. reflexivity.
  - vm_compute. reflexivity.
  - exists fl. split; [exact E |]. rewrite N. vm_compute. reflexivity.
Defined.

(** ** validate: missing ranges, positions, NaN, wider ranges *)

Lemma dict_get_missing {V} (d : list (string * V)) (key : string) :
  lookup d key = None -> dict_get d key = raise (key_error key).
Proof.
  induction d as [| [k x] t IH]; cbn [lookup dict_get]; [reflexivity |].
  destruct (String.eqb k key); [discriminate | exact IH].
Qed.

(** X13: when the readings hold a kind that the ranges do not, validate
    raises KeyError on that kind, with repr(kind) as its text, once the
    kinds before it are checked (their bounds having a text); the
    issues found so far are not returned.  Stated for a kind of ASCII
    characters. *)
Theorem validate_missing_range (pre : list (string * list pyfloat))
    (kind : string) (lst : list pyfloat) (post : list (string * list pyfloat))
    (ranges : list (string * (number * number))) :
  covers ranges pre = true ->
  printable_ranges ranges pre = true ->
  ascii_only kind = true ->
  lookup ranges kind = None ->
  validate (pre ++ (kind, lst) :: post) ranges
  = ([Call F_validate], Raise (mk_exn KeyError (repr_str kind))).
Proof.
  intros Hc Hp _ Hl. unfold validate, call. rewrite emit_bind, for_each_app.
  rewrite (validate_loop ranges pre [] Hc Hp), bind_ret_l.
  cbn [for_each]. now rewrite (dict_get_missing _ _ Hl).
Qed.

Lemma validate_missing_range_witness :
  validate [("temp", [dec true 30 0]); ("hum", [dec false 45 0])]
           [("temp", (PyInt (-20), PyInt 80))]
  = ([Call F_validate], Raise (mk_exn KeyError "'hum'"))
  /\ validate [("a'b", [])] []
     = ([Call F_validate],
        Raise (mk_exn KeyError
                 (String double_quote ("a'b" ++ String double_quote EmptyString)))).
Proof.
  split.
  - apply (validate_missing_range [("temp", [dec true 30 0])] "hum" [dec false 45 0] []
             [("temp", (PyInt (-20), PyInt 80))]); reflexivity.
  - apply (validate_missing_range [] "a'b" [] [] []); reflexivity.
Defined.

Lemma enumerate_nth {A} (lst : list A) (n : nat) (v : A) (start : Z) :
  nth_error lst n = Some v -> In (start + Z.of_nat n, v) (enumerate lst start).
Proof.
  revert n start. induction lst as [| x t IH]; intros [| n] start H;
    try discriminate H.
  - cbn [nth_error] in H. injection H as ->. left. f_equal. cbn. lia.
  - cbn [nth_error] in H. right.
    replace (start + Z.of_nat (S n)) with (start + 1 + Z.of_nat n) by lia.
    now apply IH.
Qed.

(** A value at position [n] that is not within its range is among the
    issues that validate returns. *)
Lemma reported (vals : list (string * list pyfloat))
    (ranges : list (string * (number * number)))
    (kind : string) (lst : list pyfloat) (lo hi : number) (n : nat) (v : pyfloat) :
  In (kind, lst) vals ->
  lookup ranges kind = Some (lo, hi) ->
  nth_error lst n = Some v ->
  within lo v hi = false ->
  In (issue_text kind (Z.of_nat n + 1) v lo hi) (all_issues vals ranges).
Proof.
  intros Hin Hl Hn Hw. unfold all_issues. apply in_flat_map.
  exists (kind, lst). split; [exact Hin |].
  cbn [fst snd]. unfold range_of. rewrite Hl. unfold issues_of. cbn [fst snd].
  apply (in_map (fun iv => issue_text kind (fst iv) (snd iv) lo hi) _
                (Z.of_nat n + 1, v)).
  apply filter_In. split.
  - replace (Z.of_nat n + 1) with (1 + Z.of_nat n) by lia. now apply enumerate_nth.
  - cbn [snd]. now rewrite Hw.
Qed.

(** X14: the number in an issue is the position of the reading in its
    sequence, counted from 1, not the rank of the issue: where the
    bounds have a text, a value at the 0-based position n that is not
    within its range is reported as "{kind}{n+1}", whatever the
    readings before it are. *)
Theorem validate_position (vals : list (string * list pyfloat))
    (ranges : list (string * (number * number)))
    (kind : string) (lst : list pyfloat) (lo hi : number) (n : nat) (v : pyfloat) :
  covers ranges vals = true ->
  printable_ranges ranges vals = true ->
  In (kind, lst) vals ->
  lookup ranges kind = Some (lo, hi) ->
  nth_error lst n = Some v ->
  within lo v hi = false ->
  exists issues,
    validate vals ranges = ([Call F_validate], Ret issues)
    /\ In (issue_text kind (Z.of_nat n + 1) v lo hi) issues.
Proof.
  intros Hc Hp Hin Hl Hn Hw. exists (all_issues vals ranges).
  split; [now apply validate_eq | now apply (reported vals ranges kind lst)].
Qed.

Lemma validate_position_witness :
  exists issues,
    validate doc_vals doc_ranges = ([Call F_validate], Ret issues)
    /\ In "temp3: 55.0 out of 0..50" issues.
Proof.
  destruct (validate_position doc_vals doc_ranges "temp"
              [dec false 25 0; dec true 5 0; dec false 55 0]
              (PyInt 0) (PyInt 50) 2 (dec false 55 0))
    as (issues & E & H).
  - reflexivity.
  - vm_compute. reflexivity.
  - left. reflexivity.
  - reflexivity.
  - reflexivity.
  - vm_compute. reflexivity.
  - exists issues. split; [exact E |].
    assert (T : issue_text "temp" (Z.of_nat 2 + 1) (dec false 55 0) (PyInt 0) (PyInt 50)
                = "temp3: 55.0 out of 0..50") by (vm_compute; reflexivity).
    now rewrite <- T.
Defined.

Lemma nan_never_within (lo hi : number) : within lo S754_nan hi = false.
Proof. unfold within, num_le. cbn [num_value float_value]. now destruct (num_value lo). Qed.

(** X15: a reading that is NaN never passes: whatever the bounds of its
    kind are, infinite ones included, validate reports it (the bounds
    having a text). *)
Theorem validate_nan (vals : list (string * list pyfloat))
    (ranges : list (string * (number * number)))
    (kind : string) (lst : list pyfloat) (lo hi : number) (n : nat) :
  covers ranges vals = true ->
  printable_ranges ranges vals = true ->
  In (kind, lst) vals ->
  lookup ranges kind = Some (lo, hi) ->
  nth_error lst n = Some S754_nan ->
  exists issues,
    validate vals ranges = ([Call F_validate], Ret issues)
    /\ In (issue_text kind (Z.of_nat n + 1) S754_nan lo hi) issues.
Proof.
  intros Hc Hp Hin Hl Hn. exists (all_issues vals ranges).
  split; [now apply validate_eq |].
  apply (reported vals ranges kind lst lo hi n S754_nan Hin Hl Hn).
  apply nan_never_within.
Qed.

Lemma validate_nan_witness :
  exists issues,
    validate [("temp", [dec false 25 0; S754_nan]); ("hum", [])]
             [("temp", (PyFloat (S754_infinity true), PyFloat (S754_infinity false)));
              ("hum", (PyInt 0, PyInt 100))]
    = ([Call F_validate], Ret issues)
    /\ In "temp2: nan out of -inf..inf" issues.
Proof.
  destruct (validate_nan
              [("temp", [dec false 25 0; S754_nan]); ("hum", [])]
              [("temp", (PyFloat (S754_infinity true), PyFloat (S754_infinity false)));
               ("hum", (PyInt 0, PyInt 100))]
              "temp" [dec false 25 0; S754_nan]
              (PyFloat (S754_infinity true)) (PyFloat (S754_infinity false)) 1)
    as (issues & E & H).
  - reflexivity.
  - vm_compute. reflexivity.
  - left. reflexivity.
  - reflexivity.
  - reflexivity.
  - exists issues. split; [exact E |].
    assert (T : issue_text "temp" (Z.of_nat 1 + 1) S754_nan
                  (PyFloat (S754_infinity true)) (PyFloat (S754_infinity false))
                = "temp2: nan out of -inf..inf") by (vm_compute; reflexivity).
    now rewrite <- T.
Defined.

Lemma num_le_trans (a b c : number) :
  num_le a b = true -> num_le b c = true -> num_le a c = true.
Proof.
  unfold num_le.
  destruct (num_value a), (num_value b), (num_value c); try discriminate.
  apply xreal_leb_trans.
Qed.

Lemma within_wider (lo hi lo' hi' : number) (v : pyfloat) :
  num_le lo' lo = true -> num_le hi hi' = true ->
  within lo v hi = true -> within lo' v hi' = true.
Proof.
  unfold within. intros Hlo Hhi H. apply andb_true_iff in H as [H1 H2].
  now rewrite (num_le_trans _ _ _ Hlo H1), (num_le_trans _ _ _ H2 Hhi).
Qed.

Lemma issues_of_wider (kind : string) (r r' : number * number) (lst : list pyfloat) :
  num_le (fst r') (fst r) = true ->
  num_le (snd r) (snd r') = true ->
  (List.length (issues_of kind r' lst) <= List.length (issues_of kind r lst))%nat.
Proof.
  intros Hlo Hhi. unfold issues_of. rewrite !length_map.
  generalize 1. induction lst as [| v t IH]; intros i; [apply Nat.le_refl |].
  specialize (IH (i + 1)). cbn [enumerate filter snd].
  destruct (within (fst r) v (snd r)) eqn:Hw.
  - rewrite (within_wider _ _ _ _ v Hlo Hhi Hw). cbn [negb]. exact IH.
  - cbn [negb]. destruct (within (fst r') v (snd r')); cbn [negb List.length]; lia.
Qed.

Lemma covers_lookup {V W} (ranges : list (string * V)) (vals : list (string * W))
    (kind : string) (x : W) :
  covers ranges vals = true -> In (kind, x) vals ->
  exists r, lookup ranges kind = Some r.
Proof.
  unfold covers. rewrite forallb_forall. intros H Hin.
  specialize (H _ Hin). cbn [fst] in H.
  destruct (lookup ranges kind) as [r |]; [now exists r | discriminate H].
Qed.

(** X16: widening the ranges never adds an issue.  When, for every kind
    of the readings, min' <= min and max <= max' (and the bounds have a
    text), validate returns under both maps of ranges, the wider map
    gives no more issues than the narrower, and every reading that is
    out of its wider range is among the issues that validate returns
    under the narrower one. *)
Theorem validate_wider_range (vals : list (string * list pyfloat))
    (ranges ranges' : list (string * (number * number))) :
  covers ranges vals = true ->
  covers ranges' vals = true ->
  printable_ranges ranges vals = true ->
  printable_ranges ranges' vals = true ->
  wider ranges' ranges vals = true ->
  exists issues issues',
    validate vals ranges = ([Call F_validate], Ret issues)
    /\ validate vals ranges' = ([Call F_validate], Ret issues')
    /\ (List.length issues' <= List.length issues)%nat
    /\ (forall kind lst n v,
          In (kind, lst) vals ->
          nth_error lst n = Some v ->
          within (fst (range_of ranges' kind)) v (snd (range_of ranges' kind)) = false ->
          In (issue_text kind (Z.of_nat n + 1) v
                (fst (range_of ranges kind)) (snd (range_of ranges kind)))
             issues).
Proof.
  intros Hc Hc' Hp Hp' Hw.
  exists (all_issues vals ranges), (all_issues vals ranges').
  split; [now apply validate_eq |]. split; [now apply validate_eq |]. split.
  - unfold all_issues, wider in *. clear Hc Hc' Hp Hp'.
    induction vals as [| [kind lst] t IH]; [apply Nat.le_refl |].
    cbn [forallb fst] in Hw. apply andb_true_iff in Hw as [Hk Ht].
    apply andb_true_iff in Hk as [Hlo Hhi].
    cbn [flat_map fst snd]. rewrite !length_app.
    pose proof (issues_of_wider kind _ _ lst Hlo Hhi). specialize (IH Ht). lia.
  - intros kind lst n v Hin Hn Hout.
    destruct (covers_lookup ranges vals kind lst Hc Hin) as [[lo hi] Hl].
    assert (Hr : range_of ranges kind = (lo, hi)) by (unfold range_of; now rewrite Hl).
    rewrite Hr. cbn [fst snd].
    apply (reported vals ranges kind lst lo hi n v Hin Hl Hn).
    destruct (within lo v hi) eqn:Hin_range; [| reflexivity].
    unfold wider in Hw. rewrite forallb_forall in Hw.
    specialize (Hw _ Hin). cbn [fst] in Hw. rewrite Hr in Hw. cbn [fst snd] in Hw.
    apply andb_true_iff in Hw as [Hlo Hhi].
    now rewrite (within_wider _ _ _ _ v Hlo Hhi Hin_range) in Hout.
Qed.

Lemma validate_wider_range_witness :
  validate doc_vals doc_ranges
  = ([Call F_validate],
     Ret ["temp2: -5.0 out of 0..50"; "temp3: 55.0 out of 0..50";
          "hum2: 120.0 out of 0..100"])
  /\ validate doc_vals [("temp", (PyInt (-10), PyFloat (dec false 505 (-1))));
                        ("hum", (PyInt 0, PyInt 100))]
     = ([Call F_validate],
        Ret ["temp3: 55.0 out of -10..50.5"; "hum2: 120.0 out of 0..100"]).
Proof.
  destruct (validate_wider_range doc_vals doc_ranges
              [("temp", (PyInt (-10), PyFloat (dec false 505 (-1))));
               ("hum", (PyInt 0, PyInt 100))])
    as (issues & issues' & E & E' & _).
  - vm_compute. reflexivity.
  - vm_compute. reflexivity.
  - vm_compute. reflexivity.
  - vm_compute. reflexivity.
  - vm_compute. reflexivity.
  - split.
    + rewrite E. f_equal. f_equal.
      assert (R : result (validate doc_vals doc_ranges)
                  = Ret ["temp2: -5.0 out of 0..50"; "temp3: 55.0 out of 0..50";
                         "hum2: 120.0 out of 0..100"]) by (vm_compute; reflexivity).
      rewrite E in R. now injection R.
    + rewrite E'. f_equal. f_equal.
      assert (R : result (validate doc_vals
                            [("temp", (PyInt (-10), PyFloat (dec false 505 (-1))));
                             ("hum", (PyInt 0, PyInt 100))])
                  = Ret ["temp3: 55.0 out of -10..50.5"; "hum2: 120.0 out of 0..100"])
        by (vm_compute; reflexivity).
      rewrite E' in R. now injection R.
Defined.

(** ** main: every way a run ends *)

Lemma main_acquired_ret (w : world) (a : args) l vals lr :
  acquire w (host a) (user a) (password a) (key a) (port a) = (l, Ret vals) ->
  report a vals = (lr, Ret tt) ->
  main w a
  = ((l ++ lr ++ [Print Stdout "All sensors within range, exiting 0"])%list, Exit 0).
Proof.
  intros H Hr. rewrite main_eq_acquire.
  rewrite (try_except_bind_returns _ _ _ _ _ H), Hr.
  cbn [try_except log result fst snd bind all_ok print emit sys_exit app].
  now rewrite app_assoc.
Qed.

Lemma main_not_acquired (w : world) (a : args) :
  (forall vals,
     result (acquire w (host a) (user a) (password a) (key a) (port a)) <> Ret vals) ->
  main w a
  = match acquire w (host a) (user a) (password a) (key a) (port a) with
    | (l, Raise e) =>
        ((l ++ [Print Stderr ("Failed to get sensor data: " ++ exn_msg e)])%list, Exit 1)
    | (l, Exit c) => (l, Exit c)
    | (l, Ret _) => (l, Exit 0)
    end.
Proof.
  intros H. rewrite main_eq_acquire.
  destruct (acquire w (host a) (user a) (password a) (key a) (port a))
    as [l [vals | e | c]]; cbn [result snd] in H.
  - now destruct (H vals).
  - reflexivity.
  - reflexivity.
Qed.

(** X17: main always ends by exiting, with status 0, 1, 2 or 3: it never
    returns and lets no exception escape, whatever the session, the
    text and the arguments are. *)
Theorem main_always_exits (w : world) (a : args) :
  exists c, result (main w a) = Exit c /\ (c = 0 \/ c = 1 \/ c = 2 \/ c = 3).
Proof.
  pose proof (fetch_never_exits w (host a) (user a) (password a) (key a) (port a)) as Hx.
  destruct (fetch w (host a) (user a) (password a) (key a) (port a))
    as [l [data | e | c]] eqn:E; cbn [result snd] in Hx.
  - rewrite (main_fetched w a l data E). cbn [result snd].
    destruct (main_from_status a data) as (c & Hc & Hd).
    exists c. rewrite Hc. split; [reflexivity | tauto].
  - destruct (is_bad_data e) eqn:Hb.
    + rewrite (main_bad_data w a l e E Hb). exists 3. auto.
    + rewrite (main_fetch_failed w a l e E Hb). exists 1. auto.
  - now destruct (Hx c).
Qed.

(** X18: in the non-raw path, when the readings are acquired, their
    number is at least expected_sensors and validate finds no issue,
    main prints the summary and then the line "All sensors within
    range, exiting 0", and exits with status 0. *)
Theorem main_all_ok (w : world) (a : args) (l : list event) (vals : flat) :
  raw_json_output a = false ->
  acquire w (host a) (user a) (password a) (key a) (port a) = (l, Ret vals) ->
  expected_sensors a <= len (temp vals) + len (hum vals) ->
  all_issues (flat_items vals) (ranges_of a) = [] ->
  main w a
  = ((l ++ summary vals
      ++ [Call F_validate; Print Stdout "All sensors within range, exiting 0"])%list,
     Exit 0).
Proof.
  intros Hr Ha Hn Hi. apply Z.ltb_ge in Hn.
  pose proof (report_validated a vals Hr Hn) as R. rewrite Hi in R.
  rewrite (main_acquired_ret w a l vals _ Ha R).
  now rewrite <- !app_assoc.
Qed.

Lemma main_all_ok_witness :
  main (world_of sample_text) default_args
  = ((log (acquire (world_of sample_text) "1.2.3.4" "user" (Some "pass") None 22)
      ++ summary sample_readings
      ++ [Call F_validate; Print Stdout "All sensors within range, exiting 0"])%list,
     Exit 0)
  /\ summary sample_readings
     = [Print Stdout "Found 2 temp sensors and 1 humidity sensors (total 3)";
        Print Stdout "Temperature values: [25.0, 26.0]";
        Print Stdout "Humidity values:    [45.0]"].
Proof.
  split; [| vm_compute; reflexivity].
  apply (main_all_ok (world_of sample_text) default_args
           (log (acquire (world_of sample_text) "1.2.3.4" "user" (Some "pass") None 22))
           sample_readings).
  - reflexivity.
  - vm_compute. reflexivity.
  - vm_compute. discriminate.
  - vm_compute. reflexivity.
Defined.

(** X19: in the non-raw path, when the readings are acquired, their
    number is at least expected_sensors and validate finds issues, main
    prints the summary, the line "ISSUES:" and one line "- {issue}" per
    issue, in the order of validate, and exits with status 2. *)
Theorem main_out_of_range_report (w : world) (a : args) (l : list event) (vals : flat) :
  raw_json_output a = false ->
  acquire w (host a) (user a) (password a) (key a) (port a) = (l, Ret vals) ->
  expected_sensors a <= len (temp vals) + len (hum vals) ->
  all_issues (flat_items vals) (ranges_of a) <> [] ->
  main w a
  = ((l ++ summary vals
      ++ Call F_validate :: Print Stdout "ISSUES:"
         :: map (fun issue => Print Stdout ("- " ++ issue))
                (all_issues (flat_items vals) (ranges_of a)))%list,
     Exit 2).
Proof.
  intros Hr Ha Hn Hi. apply Z.ltb_ge in Hn.
  pose proof (report_validated a vals Hr Hn) as R.
  destruct (all_issues (flat_items vals) (ranges_of a)) as [| i t]; [now destruct Hi |].
  now rewrite (main_acquired w a l vals Ha _ _ R).
Qed.

Lemma main_out_of_range_report_witness :
  main (world_of bad_text) (with_expected 2 default_args)
  = ((log (acquire (world_of bad_text) "1.2.3.4" "user" (Some "pass") None 22)
      ++ summary bad_readings
      ++ [Call F_validate; Print Stdout "ISSUES:";
          Print Stdout "- temp1: -30.0 out of -20..80";
          Print Stdout "- hum1: 150.0 out of 0..100"])%list,
     Exit 2).
Proof.
  assert (I : all_issues (flat_items bad_readings) (ranges_of (with_expected 2 default_args))
              = ["temp1: -30.0 out of -20..80"; "hum1: 150.0 out of 0..100"])
    by (vm_compute; reflexivity).
  pose proof (main_out_of_range_report (world_of bad_text) (with_expected 2 default_args)
                (log (acquire (world_of bad_text) "1.2.3.4" "user" (Some "pass") None 22))
                bad_readings) as H.
  rewrite I in H. apply H.
  - reflexivity.
  - vm_compute. reflexivity.
  - vm_compute. discriminate.
  - discriminate.
Defined.

Lemma issues_of_nil (kind : string) (r : number * number) (lst : list pyfloat) :
  issues_of kind r lst = [] ->
  forallb (fun v => within (fst r) v (snd r)) lst = true.
Proof.
  unfold issues_of. generalize 1. induction lst as [| v t IH]; intros i H;
    [reflexivity |].
  cbn [enumerate filter snd] in H. cbn [forallb].
  destruct (within (fst r) v (snd r)); cbn [negb] in H; [| discriminate H].
  now apply (IH (i + 1)).
Qed.

Lemma all_issues_nil (vals : list (string * list pyfloat))
    (ranges : list (string * (number * number))) :
  all_issues vals ranges = [] -> all_within vals ranges = true.
Proof.
  unfold all_issues, all_within. induction vals as [| [kind lst] t IH]; intros H;
    [reflexivity |].
  cbn [flat_map fst snd] in H. apply app_eq_nil in H as [H1 H2].
  cbn [forallb fst snd]. now rewrite (issues_of_nil _ _ _ H1), (IH H2).
Qed.

(** X20: the status 0 of a non-raw run can be trusted: when the readings
    are acquired and main exits with status 0, their number is at least
    expected_sensors and every reading lies within the range of its
    kind (min <= value <= max). *)
Theorem main_exit_zero_sound (w : world) (a : args) (l : list event) (vals : flat) :
  raw_json_output a = false ->
  acquire w (host a) (user a) (password a) (key a) (port a) = (l, Ret vals) ->
  exit_code (main w a) = Some 0 ->
  expected_sensors a <= len (temp vals) + len (hum vals)
  /\ all_within (flat_items vals) (ranges_of a) = true.
Proof.
  intros Hr Ha Hx.
  destruct (len (temp vals) + len (hum vals) <? expected_sensors a) eqn:Hn.
  - rewrite (main_acquired w a l vals Ha _ _ (report_missing a vals Hr Hn)) in Hx.
    discriminate Hx.
  - split; [now apply Z.ltb_ge |].
    pose proof (report_validated a vals Hr Hn) as R.
    destruct (all_issues (flat_items vals) (ranges_of a)) as [| i t] eqn:Hi.
    + now apply all_issues_nil.
    + rewrite (main_acquired w a l vals Ha _ _ R) in Hx. discriminate Hx.
Qed.

Lemma main_exit_zero_sound_witness :
  expected_sensors default_args <= len (temp sample_readings) + len (hum sample_readings)
  /\ all_within (flat_items sample_readings) (ranges_of default_args) = true.
Proof.
  apply (main_exit_zero_sound (world_of sample_text) default_args
           (log (acquire (world_of sample_text) "1.2.3.4" "user" (Some "pass") None 22))
           sample_readings).
  - reflexivity.
  - vm_compute. reflexivity.
  - vm_compute. reflexivity.
Defined.

(** X21: when the document is read but flatten_sensors raises (a value
    that is no mapping, an int too large), the handler of main prints
    "Failed to get sensor data: {e}" on stderr and the run exits with
    status 1, whatever the arguments are; nothing of the summary is
    printed. *)
Theorem main_flatten_failure (w : world) (a : args) (l lf : list event)
    (data : json) (e : exn) :
  fetch w (host a) (user a) (password a) (key a) (port a) = (l, Ret data) ->
  flatten_sensors data = (lf, Raise e) ->
  main w a
  = ((l ++ lf ++ [Print Stderr ("Failed to get sensor data: " ++ exn_msg e)])%list,
     Exit 1).
Proof.
  intros Hf He. rewrite (main_fetched w a l data Hf).
  now rewrite (main_from_raises a data lf e He).
Qed.

Lemma main_flatten_failure_witness :
  main (world_of "[]") (with_raw default_args)
  = ((log (fetch (world_of "[]") "1.2.3.4" "user" (Some "pass") None 22)
      ++ [Call F_flatten_sensors]
      ++ [Print Stderr
            "Failed to get sensor data: 'list' object has no attribute 'values'"])%list,
     Exit 1).
Proof.
  exact (main_flatten_failure (world_of "[]") (with_raw default_args)
           (log (fetch (world_of "[]") "1.2.3.4" "user" (Some "pass") None 22))
           [Call F_flatten_sensors] (JArr []) (attribute_error (JArr []) "values")
           eq_refl eq_refl).
Defined.

(** X22: when ssh_run fails with an exception that is neither a
    TypeError nor a ValueError (a refused connection, a failed
    authentication), the run exits with status 1; nothing is written to
    stdout, and stderr holds the diagnostics of ssh_run followed by
    "Failed to get sensor data: {e}": the failure is reported twice. *)
Theorem main_connection_failure (w : world) (a : args) (e : exn) :
  ssh_outcome (ssh w) = inl e ->
  is_bad_data e = false ->
  result (main w a) = Exit 1
  /\ stdout_lines (log (main w a)) = []
  /\ stderr_lines (log (main w a))
     = (ssh_diagnostics (ssh w)
        ++ [("Failed to get sensor data: " ++ exn_msg e)%string])%list.
Proof.
  intros Ho Hb.
  pose proof (fetch_eq w (host a) (user a) (password a) (key a) (port a)) as E.
  rewrite Ho in E.
  destruct (fetch_lines w (host a) (user a) (password a) (key a) (port a)) as [Hq Hs].
  rewrite E in Hq, Hs. cbn [log fst] in Hq, Hs.
  rewrite (main_fetch_failed w a _ e E Hb). cbn [log result fst snd].
  rewrite stdout_lines_app, stderr_lines_app, Hq, Hs. now split.
Qed.

Lemma main_connection_failure_witness :
  result (main (mk_world ssh_refused loads_table) default_args) = Exit 1
  /\ stdout_lines (log (main (mk_world ssh_refused loads_table) default_args)) = []
  /\ stderr_lines (log (main (mk_world ssh_refused loads_table) default_args))
     = ["SSH operation failed: Connection failed";
        "Warning: Failed to close SSH connection: Socket is closed";
        "Failed to get sensor data: Connection failed"].
Proof.
  exact (main_connection_failure (mk_world ssh_refused loads_table) default_args
           (mk_exn SSHException "Connection failed") eq_refl eq_refl).
Defined.

(** X23: when the run ends with status 3, stdout holds exactly the line
    of get_sensors_json on the bad data and stderr holds the diagnostics
    of ssh_run only: the handler of main does not run, since the exit is
    no Exception. *)
Theorem main_bad_data_output (w : world) (a : args) (e : exn) :
  result (fetch w (host a) (user a) (password a) (key a) (port a)) = Raise e ->
  is_bad_data e = true ->
  result (main w a) = Exit 3
  /\ stdout_lines (log (main w a)) = [bad_data_line e]
  /\ stderr_lines (log (main w a)) = ssh_diagnostics (ssh w).
Proof.
  intros Hf Hb.
  destruct (fetch_lines w (host a) (user a) (password a) (key a) (port a)) as [Hq Hs].
  destruct (fetch w (host a) (user a) (password a) (key a) (port a)) as [l o] eqn:E.
  cbn [log result fst snd] in *. subst o.
  rewrite (main_bad_data w a l e E Hb). cbn [log result fst snd].
  rewrite stdout_lines_app, stderr_lines_app, Hq, Hs. cbn. now rewrite app_nil_r.
Qed.

Lemma main_bad_data_output_witness :
  result (main (world_of "{invalid}") default_args) = Exit 3
  /\ stdout_lines (log (main (world_of "{invalid}") default_args))
     = ["Error parsing sensors JSON: Expecting property name enclosed in double quotes: line 1 column 2 (char 1)"]
  /\ stderr_lines (log (main (world_of "{invalid}") default_args)) = [].
Proof.
  exact (main_bad_data_output (world_of "{invalid}") default_args decode_error
           eq_refl eq_refl).
Defined.

Lemma all_issues_flat (a : args) (vals : flat) :
  all_issues (flat_items vals) (ranges_of a)
  = (issues_of "temp" (temp_range a) (temp vals)
     ++ issues_of "hum" (hum_range a) (hum vals))%list.
Proof. unfold all_issues. cbn. now rewrite app_nil_r. Qed.

Lemma issues_of_inverted_nonempty (kind : string) (r : number * number)
    (lst : list pyfloat) :
  num_lt (snd r) (fst r) = true -> lst <> [] -> issues_of kind r lst <> [].
Proof.
  destruct r as [lo hi]. cbn [fst snd]. intros Hi Hl.
  rewrite (issues_of_inverted kind lo hi lst Hi).
  destruct lst as [| v t]; [now destruct Hl | discriminate].
Qed.

(** X24: a range given with its minimum above its maximum makes the
    run fail on the first reading of that kind: in the non-raw path,
    when the readings are acquired in the expected number and there is
    a temperature with --temp-range inverted, or a humidity with
    --hum-range inverted, main exits with status 2. *)
Theorem main_inverted_range (w : world) (a : args) (l : list event) (vals : flat) :
  raw_json_output a = false ->
  acquire w (host a) (user a) (password a) (key a) (port a) = (l, Ret vals) ->
  expected_sensors a <= len (temp vals) + len (hum vals) ->
  (temp vals <> [] /\ num_lt (snd (temp_range a)) (fst (temp_range a)) = true)
  \/ (hum vals <> [] /\ num_lt (snd (hum_range a)) (fst (hum_range a)) = true) ->
  exit_code (main w a) = Some 2.
Proof.
  intros Hr Ha Hn Hi. apply Z.ltb_ge in Hn.
  pose proof (report_validated a vals Hr Hn) as R.
  assert (Hne : all_issues (flat_items vals) (ranges_of a) <> []).
  { rewrite all_issues_flat. intros E. apply app_eq_nil in E as [Et Eh].
    destruct Hi as [[Hv Hinv] | [Hv Hinv]].
    - now apply (issues_of_inverted_nonempty "temp" _ _ Hinv Hv).
    - now apply (issues_of_inverted_nonempty "hum" _ _ Hinv Hv). }
  destruct (all_issues (flat_items vals) (ranges_of a)) as [| i t]; [now destruct Hne |].
  now rewrite (main_acquired w a l vals Ha _ _ R).
Qed.

Lemma main_inverted_range_witness :
  exit_code (main (world_of sample_text) (with_temp_range inverted_arg default_args))
  = Some 2.
Proof.
  apply (main_inverted_range (world_of sample_text)
           (with_temp_range inverted_arg default_args)
           (log (acquire (world_of sample_text) "1.2.3.4" "user" (Some "pass") None 22))
           sample_readings).
  - reflexivity.
  - vm_compute. reflexivity.
  - vm_compute. discriminate.
  - left. split; [discriminate | vm_compute; reflexivity].
Defined.

(** X25: expected_sensors, the ranges and the raw flag matter only once
    the readings are acquired: when the acquisition does not return
    them (ssh_run, json.loads or flatten_sensors failed), two runs with
    the same connection arguments end the same way, with the same
    output. *)
Theorem main_failure_ignores_options (w : world) (a b : args) :
  same_connection a b ->
  (forall vals,
     result (acquire w (host a) (user a) (password a) (key a) (port a)) <> Ret vals) ->
  main w b = main w a.
Proof.
  intros (Eh & Eu & Ep & Ek & Eo) Hf.
  rewrite (main_not_acquired w a Hf).
  rewrite Eh, Eu, Ep, Ek, Eo in *.
  now apply main_not_acquired.
Qed.

Lemma main_failure_ignores_options_witness :
  main (world_of "[]") (with_raw (with_expected 0 default_args))
  = main (world_of "[]") default_args.
Proof.
  apply (main_failure_ignores_options (world_of "[]") default_args
           (with_raw (with_expected 0 default_args))).
  - repeat split.
  - intros vals. vm_compute. discriminate.
Defined.

(** ** sensors_emulator and the flattening of what it emits *)

Lemma str_int_inj (a b : Z) : str_int a = str_int b -> a = b.
Proof.
  unfold str_int. intros H. apply DecimalZ.to_int_inj.
  assert (N : forall z, NilZero.int_of_string (NilZero.string_of_int (Z.to_int z))
                        = Some (Z.to_int z)).
  { intros z. apply NilZero.isi.
    - destruct z as [| p | p]; try discriminate.
      cbn. intros E. injection E as E. now apply DecimalPos.Unsigned.to_uint_nonnil in E.
    - destruct z as [| p | p]; try discriminate.
      cbn. intros E. injection E as E. now apply DecimalPos.Unsigned.to_uint_nonnil in E. }
  pose proof (N a) as Na. rewrite H, N in Na. now injection Na.
Qed.

Lemma length_app_string (s t : string) :
  String.length (s ++ t) = (String.length s + String.length t)%nat.
Proof. induction s as [| c s IH]; cbn [append String.length]; [reflexivity | now rewrite IH]. Qed.

Lemma append_cancel_r (s1 s2 t : string) : (s1 ++ t = s2 ++ t)%string -> s1 = s2.
Proof.
  revert s2. induction s1 as [| c s1 IH]; intros [| d s2] H.
  - reflexivity.
  - apply (f_equal String.length) in H. cbn [append String.length] in H.
    rewrite length_app_string in H. lia.
  - apply (f_equal String.length) in H. cbn [append String.length] in H.
    rewrite length_app_string in H. lia.
  - cbn [append] in H. injection H as -> H. now rewrite (IH _ H).
Qed.

Lemma substring_all (s : string) : String.substring 0 (String.length s) s = s.
Proof. induction s as [| c s IH]; cbn [String.substring String.length]; [reflexivity | now rewrite IH]. Qed.

Lemma substring_skip (p s : string) (n : nat) :
  String.substring (String.length p) n (p ++ s) = String.substring 0 n s.
Proof. induction p as [| c p IH]; cbn [append String.length String.substring]; [reflexivity | exact IH]. Qed.

Lemma endswith_append (p suf : string) : endswith (p ++ suf) suf = true.
Proof.
  unfold endswith. rewrite length_app_string.
  replace (String.length p + String.length suf - String.length suf)%nat
    with (String.length p) by lia.
  rewrite substring_skip, substring_all, String.eqb_refl, andb_true_r.
  apply Nat.leb_le. lia.
Qed.

Lemma startswith_append (p s : string) : startswith (p ++ s) p = true.
Proof.
  unfold startswith. induction p as [| c p IH]; cbn [append String.prefix];
    [now destruct s |].
  now destruct (ascii_dec c c).
Qed.

Lemma temp_label_input (i : Z) :
  endswith (temp_label i) "_input" = true /\ startswith (temp_label i) "temp" = true.
Proof.
  unfold temp_label. split; [| apply startswith_append].
  change ("temp" ++ str_int i ++ "_input") with ("temp" ++ (str_int i ++ "_input")).
  assert (E : "temp" ++ (str_int i ++ "_input") = ("temp" ++ str_int i) ++ "_input").
  { cbn [append]. reflexivity. }
  rewrite E. apply endswith_append.
Qed.

Lemma hum_label_input (i : Z) :
  endswith (hum_label i) "_input" = true
  /\ startswith (hum_label i) "temp" = false
  /\ startswith (hum_label i) "humidity" = true.
Proof.
  unfold hum_label. split; [| split].
  - assert (E : "humidity" ++ (str_int i ++ "_input")
                = ("humidity" ++ str_int i) ++ "_input").
    { cbn [append]. reflexivity. }
    rewrite E. apply endswith_append.
  - unfold startswith. cbn [append String.prefix]. now destruct (ascii_dec "t" "h").
  - apply startswith_append.
Qed.

Lemma temp_label_inj (i j : Z) : temp_label i = temp_label j -> i = j.
Proof.
  unfold temp_label. cbn [append]. intros H. injection H as H.
  now apply str_int_inj, (append_cancel_r _ _ "_input").
Qed.

Lemma hum_label_inj (i j : Z) : hum_label i = hum_label j -> i = j.
Proof.
  unfold hum_label. cbn [append]. intros H. injection H as H.
  now apply str_int_inj, (append_cancel_r _ _ "_input").
Qed.

Lemma temp_label_not_hum (i j : Z) : temp_label i <> hum_label j.
Proof. unfold temp_label, hum_label. cbn [append]. discriminate. Qed.

Lemma lookup_app_None {V} (d1 d2 : list (string * V)) (key : string) :
  lookup d1 key = None -> lookup d2 key = None -> lookup (d1 ++ d2) key = None.
Proof.
  induction d1 as [| [k x] t IH]; cbn [lookup app]; [auto |].
  destruct (String.eqb k key); [discriminate | exact IH].
Qed.

Lemma dict_set_fresh {V} (d : list (string * V)) (key : string) (v : V) :
  lookup d key = None -> dict_set d key v = (d ++ [(key, v)])%list.
Proof.
  induction d as [| [k x] t IH]; cbn [lookup dict_set app]; [reflexivity |].
  destruct (String.eqb k key); [discriminate |].
  intros H. now rewrite (IH H).
Qed.

Lemma lookup_map_None {V} (keyf : Z -> string) (valf : Z -> V) (l : list Z)
    (key : string) :
  (forall i, In i l -> keyf i <> key) ->
  lookup (map (fun i => (keyf i, valf i)) l) key = None.
Proof.
  induction l as [| i t IH]; intros H; cbn [map lookup]; [reflexivity |].
  destruct (String.eqb_spec (keyf i) key) as [E | _].
  - now destruct (H i (or_introl eq_refl)).
  - apply IH. intros j Hj. apply H. now right.
Qed.

(** Assignments under keys that are new and pairwise distinct append. *)
Lemma fold_dict_set {V} (keyf : Z -> string) (valf : Z -> V) (l : list Z)
    (init : list (string * V)) :
  NoDup l ->
  (forall i j, In i l -> In j l -> keyf i = keyf j -> i = j) ->
  (forall i, In i l -> lookup init (keyf i) = None) ->
  fold_left (fun chip i => dict_set chip (keyf i) (valf i)) l init
  = (init ++ map (fun i => (keyf i, valf i)) l)%list.
Proof.
  revert init. induction l as [| i t IH]; intros init Hd Hinj Hnew.
  - cbn [fold_left map]. now rewrite app_nil_r.
  - cbn [fold_left map].
    rewrite (dict_set_fresh init _ _ (Hnew i (or_introl eq_refl))).
    inversion Hd as [| ? ? Hi Ht]; subst.
    rewrite IH.
    + now rewrite <- app_assoc.
    + exact Ht.
    + intros a b Ha Hb. apply Hinj; now right.
    + intros j Hj. apply lookup_app_None; [apply Hnew; now right |].
      cbn [lookup]. destruct (String.eqb_spec (keyf i) (keyf j)) as [E | _];
        [| reflexivity].
      apply Hinj in E; [| now left | now right]. subst. now destruct Hi.
Qed.

Lemma NoDup_map_inj {A B} (f : A -> B) (l : list A) :
  (forall x y, f x = f y -> x = y) -> NoDup l -> NoDup (map f l).
Proof.
  intros Hf Hl. induction Hl as [| x t Hx Ht IH]; cbn [map]; constructor.
  - intros Hin. apply in_map_iff in Hin as (y & E & Hy).
    apply Hf in E. now subst.
  - exact IH.
Qed.

Lemma NoDup_disjoint_app {A} (l1 l2 : list A) :
  NoDup l1 -> NoDup l2 -> (forall x, In x l1 -> In x l2 -> False) ->
  NoDup (l1 ++ l2).
Proof.
  intros H1 H2 Hd. induction H1 as [| x t Hx Ht IH]; cbn [app]; [exact H2 |].
  constructor.
  - intros Hin. apply in_app_or in Hin as [Hin | Hin]; [now apply Hx |].
    apply (Hd x); [now left | exact Hin].
  - apply IH. intros y Hy. apply Hd. now right.
Qed.

Lemma py_range_NoDup (a b : Z) : NoDup (py_range a b).
Proof.
  unfold py_range. apply NoDup_map_inj; [| apply seq_NoDup].
  intros x y H. lia.
Qed.

Lemma py_range_length (a b : Z) : List.length (py_range a b) = Z.to_nat (b - a).
Proof. unfold py_range. now rewrite length_map, length_seq. Qed.

Lemma emulator_chip_eq (num_temps num_hums : Z) (rand_temp rand_hum : Z -> pyfloat) :
  emulator_chip num_temps num_hums rand_temp rand_hum
  = (map (fun i => (temp_label i, JFloat (rand_temp i))) (py_range 1 (num_temps + 1))
     ++ map (fun i => (hum_label i, JFloat (rand_hum i))) (py_range 1 (num_hums + 1)))%list.
Proof.
  unfold emulator_chip.
  rewrite (fold_dict_set temp_label (fun i => JFloat (rand_temp i))).
  - cbn [app]. rewrite (fold_dict_set hum_label (fun i => JFloat (rand_hum i)));
      [reflexivity | apply py_range_NoDup | |].
    + intros i j _ _. apply hum_label_inj.
    + intros i _. apply lookup_map_None. intros j _. apply temp_label_not_hum.
  - apply py_range_NoDup.
  - intros i j _ _. apply temp_label_inj.
  - reflexivity.
Qed.

(** X26: the keys that sensors_emulator assigns are pairwise distinct,
    so no assignment replaces a field: the chip it emits holds, in
    order, one field temp{i}_input for each i from 1 to NUM_TEMPS and
    then one field humidity{i}_input for each i from 1 to NUM_HUMS,
    each with the float drawn for it; a count of zero or below gives no
    field of that kind. *)
Theorem emulator_chip_fields (num_temps num_hums : Z)
    (rand_temp rand_hum : Z -> pyfloat) :
  emulator_chip num_temps num_hums rand_temp rand_hum
  = (map (fun i => (temp_label i, JFloat (rand_temp i))) (py_range 1 (num_temps + 1))
     ++ map (fun i => (hum_label i, JFloat (rand_hum i))) (py_range 1 (num_hums + 1)))%list
  /\ NoDup (map fst (emulator_chip num_temps num_hums rand_temp rand_hum))
  /\ List.length (emulator_chip num_temps num_hums rand_temp rand_hum)
     = (Z.to_nat num_temps + Z.to_nat num_hums)%nat.
Proof.
  rewrite emulator_chip_eq. split; [reflexivity | split].
  - rewrite map_app, !map_map. cbn [fst].
    apply NoDup_disjoint_app.
    + apply NoDup_map_inj; [| apply py_range_NoDup].
      intros i j. apply temp_label_inj.
    + apply NoDup_map_inj; [| apply py_range_NoDup].
      intros i j. apply hum_label_inj.
    + intros k Ht Hh. apply in_map_iff in Ht as (i & <- & _).
      apply in_map_iff in Hh as (j & E & _). symmetry in E.
      now apply temp_label_not_hum in E.
  - rewrite length_app, !length_map, !py_range_length. f_equal; f_equal; lia.
Qed.

Lemma flatten_temp_field (fl : flat) (i : Z) (v : pyfloat) :
  flatten_field fl (temp_label i, JFloat v)
  = ret (mk_flat (temp fl ++ [float_reading v]) (hum fl)).
Proof.
  destruct (temp_label_input i) as [He Hs].
  unfold flatten_field. cbn [is_numeric negb]. rewrite He. cbn [negb div1000].
  now rewrite bind_ret_l, Hs.
Qed.

Lemma flatten_hum_field (fl : flat) (i : Z) (v : pyfloat) :
  flatten_field fl (hum_label i, JFloat v)
  = ret (mk_flat (temp fl) (hum fl ++ [float_reading v])).
Proof.
  destruct (hum_label_input i) as (He & Ht & Hh).
  unfold flatten_field. cbn [is_numeric negb]. rewrite He. cbn [negb div1000].
  now rewrite bind_ret_l, Ht, Hh.
Qed.

Lemma flatten_temp_fields (rand : Z -> pyfloat) (l : list Z) (fl : flat) :
  for_each (map (fun i => (temp_label i, JFloat (rand i))) l) flatten_field fl
  = ret (mk_flat (temp fl ++ map (fun i => float_reading (rand i)) l) (hum fl)).
Proof.
  revert fl. induction l as [| i t IH]; intros fl; cbn [map for_each].
  - rewrite app_nil_r. now destruct fl.
  - rewrite flatten_temp_field, bind_ret_l, IH. cbn [temp hum].
    now rewrite <- app_assoc.
Qed.

Lemma flatten_hum_fields (rand : Z -> pyfloat) (l : list Z) (fl : flat) :
  for_each (map (fun i => (hum_label i, JFloat (rand i))) l) flatten_field fl
  = ret (mk_flat (temp fl) (hum fl ++ map (fun i => float_reading (rand i)) l)).
Proof.
  revert fl. induction l as [| i t IH]; intros fl; cbn [map for_each].
  - rewrite app_nil_r. now destruct fl.
  - rewrite flatten_hum_field, bind_ret_l, IH. cbn [temp hum].
    now rewrite <- app_assoc.
Qed.

(** X27: flatten_sensors takes everything that sensors_emulator emits:
    on the document of the emulator it returns, with no warning and
    whatever floats were drawn, one temperature per temp field and one
    humidity per humidity field, in the order of their numbers, each
    being round(v / 1000, 1); so it finds max(NUM_TEMPS, 0) temperatures
    and max(NUM_HUMS, 0) humidities. *)
Theorem flatten_sensors_emulator (num_temps num_hums : Z)
    (rand_temp rand_hum : Z -> pyfloat) :
  flatten_sensors (emulator_doc num_temps num_hums rand_temp rand_hum)
  = ([Call F_flatten_sensors],
     Ret (mk_flat
            (map (fun i => float_reading (rand_temp i)) (py_range 1 (num_temps + 1)))
            (map (fun i => float_reading (rand_hum i)) (py_range 1 (num_hums + 1)))))
  /\ len (map (fun i => float_reading (rand_temp i)) (py_range 1 (num_temps + 1)))
     = Z.max num_temps 0
  /\ len (map (fun i => float_reading (rand_hum i)) (py_range 1 (num_hums + 1)))
     = Z.max num_hums 0.
Proof.
  split; [| split].
  - unfold emulator_doc, flatten_sensors, call. rewrite emit_bind.
    cbn [values map snd]. rewrite bind_ret_l. cbn [for_each].
    unfold flatten_chip. cbn [items]. rewrite bind_ret_l.
    rewrite emulator_chip_eq, for_each_app, flatten_temp_fields, bind_ret_l.
    rewrite flatten_hum_fields. cbn [temp hum app].
    now rewrite bind_ret_r.
  - unfold len. rewrite length_map, py_range_length. lia.
  - unfold len. rewrite length_map, py_range_length. lia.
Qed.

(** The run of the script with its defaults, NUM_TEMPS = NUM_HUMS = 2. *)
Example emulator_default_run :
  map fst (emulator_chip 2 2 (fun _ => dec false 1234567 (-2))
                             (fun _ => dec false 5000012 (-2)))
  = ["temp1_input"; "temp2_input"; "humidity1_input"; "humidity2_input"]
  /\ result (flatten_sensors
               (emulator_doc 2 2 (fun _ => dec false 1234567 (-2))
                                 (fun _ => dec false 5000012 (-2))))
     = Ret (mk_flat [dec false 123 (-1); dec false 123 (-1)]
                    [dec false 50 0; dec false 50 0]).
Proof. split; vm_compute; reflexivity. Qed.
